(** * img-to-excel: a picture rendered as coloured spreadsheet cells

    A shallow embedding of [main.py].  The pure helpers ([rgb_to_hex],
    [get_subpixel_indices]) are Rocq functions over [Z] and [string]; the
    code that mutates the worksheet, reports progress and saves the workbook
    runs in a small state-and-exception monad whose state carries the
    workbook, the files written and the sequence of observable effects. *)

From stdpp Require Import gmap strings list fin_maps.
From Stdlib Require Import ZArith Lia Ascii.
From Stdlib Require Import Floats.PrimFloat.

Set Warnings "-inexact-float".
Local Open Scope Z_scope.

(** ** Python's [format(n, "02X")] *)

Module PyFormat.

(** One uppercase hexadecimal digit; [d] is taken modulo 16 by the caller. *)
Definition hex_digit (d : Z) : ascii :=
  match d with
  | 0 => "0" | 1 => "1" | 2 => "2" | 3 => "3"
  | 4 => "4" | 5 => "5" | 6 => "6" | 7 => "7"
  | 8 => "8" | 9 => "9" | 10 => "A" | 11 => "B"
  | 12 => "C" | 13 => "D" | 14 => "E" | _ => "F"
  end%char.

(** Digits of a non-negative integer, most significant first.  The fuel is
    an upper bound on the number of digits. *)
Fixpoint hex_digits (fuel : nat) (n : Z) (acc : string) : string :=
  match fuel with
  | O => acc
  | S fuel' =>
      let acc' := String (hex_digit (n mod 16)) acc in
      if n / 16 =? 0 then acc' else hex_digits fuel' (n / 16) acc'
  end.

(** [format(n, "X")] without sign: at least one digit. *)
Definition hex_abs (n : Z) : string :=
  hex_digits (S (Z.to_nat (Z.log2 (Z.abs n)))) (Z.abs n) "".

Fixpoint zeros (k : nat) : string :=
  match k with
  | O => ""
  | S k' => String "0"%char (zeros k')
  end.

(** [format(n, "02X")]: uppercase hexadecimal, minimum width 2, padded with
    zeros between the sign and the digits. *)
Definition format_02X (n : Z) : string :=
  let sign := if n <? 0 then "-" else "" in
  let digits := hex_abs n in
  sign +:+ zeros (2 - String.length sign - String.length digits) +:+ digits.

End PyFormat.

(** ** The pure helpers of [main.py] *)

Definition rgb : Type := Z * Z * Z.

(** [rgb_to_hex]: one colour string per channel. *)
Definition rgb_to_hex (px : rgb) : string * string * string :=
  let '(r, g, b) := px in
  let red := PyFormat.format_02X r +:+ "0000" in
  let green := "00" +:+ PyFormat.format_02X g +:+ "00" in
  let blue := "0000" +:+ PyFormat.format_02X b in
  (red, green, blue).

(** [get_subpixel_indices]: the source binds [green_index] to the middle
    column and [blue_index] to the last one, and returns them in the order
    [red_index, blue_index, green_index]. *)
Definition get_subpixel_indices (col_num : Z) : Z * Z * Z :=
  let offset := (col_num - 1) * 2 in
  let red_index := col_num + offset in
  let green_index := col_num + offset + 1 in
  let blue_index := col_num + offset + 2 in
  (red_index, blue_index, green_index).

Example format_examples :
  PyFormat.format_02X <$> [0; 9; 10; 128; 255; 256; -1; -15; -300]
  = ["00"; "09"; "0A"; "80"; "FF"; "100"; "-1"; "-F"; "-12C"].
Proof. reflexivity. Qed.

Example rgb_to_hex_example :
  rgb_to_hex (255, 128, 0) = ("FF0000", "008000", "000000").
Proof. reflexivity. Qed.

Example get_subpixel_indices_examples :
  get_subpixel_indices <$> [1; 2; 3] = [(1, 3, 2); (4, 6, 5); (7, 9, 8)].
Proof. reflexivity. Qed.

(** ** Library objects: openpyxl, PIL and progressbar

    Only what [main.py] touches is modelled.  Exceptions raised by the
    libraries are collected in [exn]; [LoadError] stands for whatever
    [Image.open] raises on a missing or undecodable file and [SaveError] for
    what [Workbook.save] raises on a destination that cannot be written. *)

Inductive exn : Set :=
| LoadError
| SaveError
| ValueError
| IndexError.

Record PatternFill : Set := mkPatternFill {
  start_color : string;
  end_color : string;
  fill_type : option string
}.

Record Cell : Set := mkCell { fill : PatternFill }.

(** A cell created by [ws.cell] carries openpyxl's default, empty fill. *)
Definition default_cell : Cell :=
  {| fill := {| start_color := "00000000"; end_color := "00000000";
                fill_type := None |} |}.

Record SheetFormatProperties : Set := mkSheetFormat {
  defaultColWidth : option float;
  defaultRowHeight : float
}.

Record Worksheet : Type := mkWorksheet {
  sheet_format : SheetFormatProperties;
  cells : gmap (Z * Z) Cell
}.

Record Workbook : Type := mkWorkbook {
  sheets : list Worksheet;
  active : nat
}.

(** A fresh [Workbook()] holds one empty sheet, which is the active one. *)
Definition new_worksheet : Worksheet :=
  {| sheet_format := {| defaultColWidth := None; defaultRowHeight := 15 |};
     cells := ∅ |}.

Definition new_workbook : Workbook :=
  {| sheets := [new_worksheet]; active := 0 |}.

(** An image converted to mode RGB: its size and its pixel accessor.  What
    [getpixel] does outside the image is left to the library. *)
Record RGBImage : Type := mkRGBImage {
  rgb_size : Z * Z;
  getpixel : Z * Z → exn + rgb
}.

(** An opened image file: its size and its conversion to RGB. *)
Record Image : Type := mkImage {
  size : Z * Z;
  convert_RGB : RGBImage
}.

Record ProgressBar : Set := mkProgressBar { max_value : Z }.

(** ** Program state and observable effects *)

Inductive Event : Type :=
| EvSheetFormat (p : SheetFormatProperties)
| EvFill (row column : Z) (colour : string)
| EvProgress (value : Z)
| EvProgressFinish (dirty : bool)
| EvPrint (line : string)
| EvSave (path : string).

(** References into the heap of workbooks: [wb] and [ws] in [main] name the
    same object graph, so a fill set through [ws] is what [wb.save] writes. *)
Definition wb_ref : Set := nat.
Definition ws_ref : Set := (nat * nat)%type.
Definition cell_ref : Set := (ws_ref * (Z * Z))%type.

Record State : Type := mkState {
  heap : list Workbook;
  files : gmap string Workbook;
  effects : list Event
}.

(** The world outside the process: which paths decode to an image, and which
    destinations can be written. *)
Record Env : Type := mkEnv {
  image_open : string → option Image;
  writable : string → bool
}.

(** ** The state-and-exception monad *)

Definition M (A : Type) : Type := State → (exn + A) * State.

Definition ret {A} (a : A) : M A := λ st, (inr a, st).

Definition bind {A B} (m : M A) (k : A → M B) : M B :=
  λ st, match m st with
        | (inr a, st') => k a st'
        | (inl e, st') => (inl e, st')
        end.

Definition raise {A} (e : exn) : M A := λ st, (inl e, st).

Definition modify (f : State → State) : M unit := λ st, (inr tt, f st).

Definition gets {A} (f : State → A) : M A := λ st, (inr (f st), st).

Declare Scope py_scope.
Delimit Scope py_scope with py.
Notation "x <~ c1 ;; c2" := (bind c1 (λ x, c2))
  (at level 100, c1 at next level, right associativity) : py_scope.
Notation "c1 >> c2" := (bind c1 (λ _, c2))
  (at level 100, right associativity) : py_scope.
Local Open Scope py_scope.

Definition emit (e : Event) : M unit :=
  modify (λ st, {| heap := heap st; files := files st;
                   effects := effects st ++ [e] |}).

(** [for x in l: body] *)
Fixpoint for_each {A} (l : list A) (body : A → M unit) : M unit :=
  match l with
  | [] => ret tt
  | x :: l' => body x >> for_each l' body
  end.

(** [range(lo, hi)] and [enumerate] *)
Definition range (lo hi : Z) : list Z := seqZ lo (hi - lo).

Definition enumerate {A} (l : list A) : list (Z * A) :=
  zip (seqZ 0 (Z.of_nat (length l))) l.

Example range_examples :
  range 1 4 = [1; 2; 3] ∧ range 1 1 = [] ∧ range 1 0 = [] ∧
  enumerate (range 1 4) = [(0, 1); (1, 2); (2, 3)].
Proof. repeat split. Qed.

(** ** Library operations *)

(** References are only ever obtained from [Workbook_new] and [wb_active],
    so the default below is never reached by [main]. *)
Definition deref (wb : wb_ref) (st : State) : Workbook :=
  default new_workbook (heap st !! wb).

(** [Workbook()] *)
Definition Workbook_new : M wb_ref :=
  λ st, (inr (length (heap st)),
         {| heap := heap st ++ [new_workbook]; files := files st;
            effects := effects st |}).

(** [wb.active] *)
Definition wb_active (wb : wb_ref) : M ws_ref :=
  gets (λ st, (wb, active (deref wb st))).

Definition update_sheet (ws : ws_ref) (f : Worksheet → Worksheet) : M unit :=
  modify (λ st,
    {| heap := alter (λ wb, {| sheets := alter f ws.2 (sheets wb);
                               active := active wb |}) ws.1 (heap st);
       files := files st; effects := effects st |}).

(** [ws.sheet_format = p] *)
Definition set_sheet_format (ws : ws_ref) (p : SheetFormatProperties) : M unit :=
  update_sheet ws (λ s, {| sheet_format := p; cells := cells s |}) >>
  emit (EvSheetFormat p).

(** [ws.cell(row=row, column=column)]: openpyxl rejects coordinates below 1
    and creates the cell when it does not exist yet. *)
Definition ws_cell (ws : ws_ref) (row column : Z) : M cell_ref :=
  if (row <? 1) || (column <? 1) then raise ValueError
  else
    update_sheet ws (λ s,
      {| sheet_format := sheet_format s;
         cells := match cells s !! (row, column) with
                  | Some _ => cells s
                  | None => <[(row, column) := default_cell]> (cells s)
                  end |}) >>
    ret (ws, (row, column)).

(** [cell.fill = p] *)
Definition set_fill (c : cell_ref) (p : PatternFill) : M unit :=
  update_sheet c.1 (λ s,
    {| sheet_format := sheet_format s;
       cells := alter (λ _, {| fill := p |}) c.2 (cells s) |}) >>
  emit (EvFill c.2.1 c.2.2 (start_color p)).

(** [Image.open(path)].  Leaving the [with] block closes the file handle;
    the converted copy [rgb_im] outlives it and the state records nothing
    about the handle. *)
Definition Image_open (env : Env) (path : string) : M Image :=
  match image_open env path with
  | Some im => ret im
  | None => raise LoadError
  end.

(** [rgb_im.getpixel(xy)] *)
Definition Image_getpixel (im : RGBImage) (xy : Z * Z) : M rgb :=
  match getpixel im xy with
  | inr px => ret px
  | inl e => raise e
  end.

(** [progress_bar.update(value)]: progressbar rejects a value outside
    [0, max_value]. *)
Definition progress_update (bar : ProgressBar) (value : Z) : M unit :=
  if (0 <=? value) && (value <=? max_value bar) then emit (EvProgress value)
  else raise ValueError.

(** [with ProgressBar(max_value=n) as progress_bar: body]: the bar is
    finished on the way out, also when the body raised. *)
Definition with_ProgressBar (n : Z) (body : ProgressBar → M unit) : M unit :=
  λ st, match body {| max_value := n |} st with
        | (inr _, st') => emit (EvProgressFinish false) st'
        | (inl e, st') => (inl e, (emit (EvProgressFinish true) st').2)
        end.

Definition print (line : string) : M unit := emit (EvPrint line).

(** [wb.save(path)] *)
Definition Workbook_save (env : Env) (wb : wb_ref) (path : string) : M unit :=
  if writable env path then
    modify (λ st, {| heap := heap st;
                     files := <[path := deref wb st]> (files st);
                     effects := effects st ++ [EvSave path] |})
  else raise SaveError.

(** [zip] of two 3-tuples *)
Definition zip3 {A B} (a : A * A * A) (b : B * B * B) : list (A * B) :=
  let '(a1, a2, a3) := a in
  let '(b1, b2, b3) := b in
  [(a1, b1); (a2, b2); (a3, b3)].

(** ** The effectful code of [main.py] *)

Definition fill_subpixel (pixel_row : Z → M cell_ref) (subpixel_index : Z)
    (colour : string) : M unit :=
  c <~ pixel_row subpixel_index ;;
  set_fill c {| start_color := colour; end_color := colour;
                fill_type := Some "solid" |}.

Definition fill_pixel (ws : ws_ref) (row_num : Z)
    (subpixel_indices : Z * Z * Z) (subpixel_colours : string * string * string)
    : M unit :=
  let pixel_row := λ column, ws_cell ws row_num column in
  for_each (zip3 subpixel_indices subpixel_colours)
    (λ '(subpixel_index, colour), fill_subpixel pixel_row subpixel_index colour).

(** The body of the inner loop of [main]: one pixel. *)
Definition render_pixel (ws : ws_ref) (rgb_im : RGBImage) (height : Z)
    (progress_bar : ProgressBar) (i col_num : Z) (subpixel_indices : Z * Z * Z)
    (row_num : Z) : M unit :=
  px <~ Image_getpixel rgb_im (col_num - 1, row_num - 1) ;;
  let subpixel_colours := rgb_to_hex px in
  fill_pixel ws row_num subpixel_indices subpixel_colours >>
  let iteration := i * height + row_num in
  progress_update progress_bar iteration.

(** The body of the outer loop of [main]: one image column. *)
Definition render_column (ws : ws_ref) (rgb_im : RGBImage) (height : Z)
    (progress_bar : ProgressBar) (ic : Z * Z) : M unit :=
  let '(i, col_num) := ic in
  let subpixel_indices := get_subpixel_indices col_num in
  for_each (range 1 (height + 1))
    (render_pixel ws rgb_im height progress_bar i col_num subpixel_indices).

Definition grid_format : SheetFormatProperties :=
  {| defaultColWidth := Some 0.1%float; defaultRowHeight := 2.5%float |}.

Definition main (env : Env) (input_filepath destination_filepath : string)
    : M unit :=
  wb <~ Workbook_new ;;
  ws <~ wb_active wb ;;
  set_sheet_format ws grid_format >>
  loaded <~ (im <~ Image_open env input_filepath ;;
             let '(width, height) := size im in
             ret (width, height, convert_RGB im)) ;;
  let '(width, height, rgb_im) := loaded in
  with_ProgressBar (width * height) (λ progress_bar,
    for_each (enumerate (range 1 (width + 1)))
      (render_column ws rgb_im height progress_bar)) >>
  print ("Saving file to " +:+ destination_filepath) >>
  Workbook_save env wb destination_filepath.

(** The state of a process that has just started, with [fs] the spreadsheet
    files already on disk. *)
Definition init_state (fs : gmap string Workbook) : State :=
  {| heap := []; files := fs; effects := [] |}.

(** ** Concrete images *)

(** An RGB image given by its rows; [getpixel] raises outside the image. *)
Definition image_of_rows (w h : Z) (rows : list (list rgb)) : Image :=
  {| size := (w, h);
     convert_RGB :=
       {| rgb_size := (w, h);
          getpixel := λ '(x, y),
            if (0 <=? x) && (x <? w) && (0 <=? y) && (y <? h) then
              match rows !! Z.to_nat y ≫= (λ row, row !! Z.to_nat x) with
              | Some px => inr px
              | None => inl IndexError
              end
            else inl IndexError |} |}.

(** A world with a single image file and every destination writable. *)
Definition env_with (path : string) (im : Image) : Env :=
  {| image_open := λ p, if String.eqb p path then Some im else None;
     writable := λ _, true |}.

Example main_one_pixel :
  let im := image_of_rows 1 1 [[(255, 128, 0)]] in
  let run := main (env_with "in.png" im) "in.png" "out.xlsx" (init_state ∅) in
  run.1 = inr tt ∧
  effects run.2 =
    [EvSheetFormat grid_format; EvFill 1 1 "FF0000"; EvFill 1 3 "008000";
     EvFill 1 2 "000000"; EvProgress 1; EvProgressFinish false;
     EvPrint "Saving file to out.xlsx"; EvSave "out.xlsx"].
Proof. split; vm_compute; reflexivity. Qed.

(** * Properties of the pure helpers *)

(** ** [rgb_to_hex] *)

(** The two-digit, zero-padded, uppercase hexadecimal numeral of a byte, as
    the specification words it: high nibble, then low nibble. *)
Definition two_digit_hex (v : Z) : string :=
  String (PyFormat.hex_digit (v / 16))
    (String (PyFormat.hex_digit (v mod 16)) "").

(** The [k]-th byte pair (0, 1 or 2) of a colour string. *)
Definition byte_pair (k : nat) (s : string) : string :=
  String.substring (2 * k) 2 s.

Definition is_hex_char (c : ascii) : bool :=
  let n := Z.of_nat (nat_of_ascii c) in
  ((48 <=? n) && (n <=? 57)) || ((65 <=? n) && (n <=? 70)).

Fixpoint hex_string (s : string) : bool :=
  match s with
  | EmptyString => true
  | String c s' => is_hex_char c && hex_string s'
  end.

Definition is_byte (v : Z) : Prop := 0 ≤ v < 256.

Lemma elem_of_range lo hi v : v ∈ range lo hi ↔ lo ≤ v < hi.
Proof. unfold range. rewrite elem_of_seqZ. lia. Qed.

(** A property of bytes decided by a boolean function holds of every byte
    once it has been checked on the 256 of them. *)
Lemma byte_enum (P : Z → bool) :
  forallb P (range 0 256) = true → ∀ v, is_byte v → P v = true.
Proof.
  intros Hall v Hv. rewrite forallb_forall in Hall.
  apply Hall, list_elem_of_In, elem_of_range, Hv.
Qed.

Ltac by_byte_enum P v :=
  apply (byte_enum P); [vm_compute; reflexivity | assumption].

Lemma format_02X_byte v : is_byte v → PyFormat.format_02X v = two_digit_hex v.
Proof.
  intros Hv. apply String.eqb_eq.
  by_byte_enum (λ v, String.eqb (PyFormat.format_02X v) (two_digit_hex v)) v.
Qed.

Lemma two_digit_hex_zero v : is_byte v → two_digit_hex v = "00" ↔ v = 0.
Proof.
  intros Hv.
  assert (String.eqb (two_digit_hex v) "00" = (v =? 0)) as H.
  { apply Bool.eqb_prop.
    by_byte_enum (λ v, Bool.eqb (String.eqb (two_digit_hex v) "00") (v =? 0)) v. }
  rewrite <- String.eqb_eq, H. apply Z.eqb_eq.
Qed.

Lemma two_digit_hex_chars v : is_byte v → hex_string (two_digit_hex v) = true.
Proof. intros Hv. by_byte_enum (λ v, hex_string (two_digit_hex v)) v. Qed.

(** C2: on 8-bit channels [rgb_to_hex] yields three strings of six
    hexadecimal digits; the first is the two-digit uppercase numeral of [r]
    followed by "0000", the second "00", the numeral of [g], "00", the third
    "0000" followed by the numeral of [b].  In each string the byte pairs of
    the two other channels are "00" and the channel's own pair is non-zero
    exactly when the channel is. *)
Theorem rgb_to_hex_channel_isolation (r g b : Z) :
  is_byte r → is_byte g → is_byte b →
  ∃ red green blue,
    rgb_to_hex (r, g, b) = (red, green, blue) ∧
    red = two_digit_hex r +:+ "0000" ∧
    green = "00" +:+ two_digit_hex g +:+ "00" ∧
    blue = "0000" +:+ two_digit_hex b ∧
    Forall (λ s, String.length s = 6%nat ∧ hex_string s = true)
      [red; green; blue] ∧
    byte_pair 0 red = two_digit_hex r ∧
    byte_pair 1 red = "00" ∧ byte_pair 2 red = "00" ∧
    byte_pair 0 green = "00" ∧
    byte_pair 1 green = two_digit_hex g ∧ byte_pair 2 green = "00" ∧
    byte_pair 0 blue = "00" ∧ byte_pair 1 blue = "00" ∧
    byte_pair 2 blue = two_digit_hex b ∧
    (byte_pair 0 red ≠ "00" ↔ r ≠ 0) ∧
    (byte_pair 1 green ≠ "00" ↔ g ≠ 0) ∧
    (byte_pair 2 blue ≠ "00" ↔ b ≠ 0).
Proof.
  intros Hr Hg Hb. eexists _, _, _. split; [reflexivity |].
  rewrite !format_02X_byte by assumption.
  pose proof (two_digit_hex_chars r Hr) as Cr.
  pose proof (two_digit_hex_chars g Hg) as Cg.
  pose proof (two_digit_hex_chars b Hb) as Cb.
  pose proof (two_digit_hex_zero r Hr) as Zr.
  pose proof (two_digit_hex_zero g Hg) as Zg.
  pose proof (two_digit_hex_zero b Hb) as Zb.
  unfold two_digit_hex in *. cbn in Cr, Cg, Cb.
  repeat apply andb_prop in Cr as [? Cr].
  repeat apply andb_prop in Cg as [? Cg].
  repeat apply andb_prop in Cb as [? Cb].
  split_and!; try reflexivity.
  - repeat constructor; cbn; repeat (apply andb_true_intro; split); done.
  - cbn. by rewrite Zr.
  - cbn. by rewrite Zg.
  - cbn. by rewrite Zb.
Qed.

Lemma rgb_to_hex_channel_isolation_witness :
  is_byte 255 ∧ is_byte 128 ∧ is_byte 0 ∧
  rgb_to_hex (255, 128, 0) = ("FF0000", "008000", "000000").
Proof.
  assert (is_byte 255 ∧ is_byte 128 ∧ is_byte 0) as (Hr & Hg & Hb)
    by (unfold is_byte; lia).
  split_and!; try assumption.
  destruct (rgb_to_hex_channel_isolation 255 128 0 Hr Hg Hb)
    as (red & green & blue & E & -> & -> & -> & _).
  exact E.
Defined.

(** ** [get_subpixel_indices] *)

Lemma get_subpixel_indices_eq c :
  get_subpixel_indices c = (3 * c - 2, 3 * c, 3 * c - 1).
Proof. unfold get_subpixel_indices. repeat f_equal; lia. Qed.

(** The column indices of one image column, as a set. *)
Definition index_set (t : Z * Z * Z) : gset Z :=
  let '(a, b, c) := t in {[a; b; c]}.

Lemma index_set_subpixel c k :
  k ∈ index_set (get_subpixel_indices c) ↔ 3 * c - 2 ≤ k ≤ 3 * c.
Proof.
  rewrite get_subpixel_indices_eq. cbn.
  rewrite !elem_of_union, !elem_of_singleton. lia.
Qed.

Lemma subpixel_indices_disjoint c1 c2 :
  c1 ≠ c2 →
  index_set (get_subpixel_indices c1) ## index_set (get_subpixel_indices c2).
Proof.
  intros Hne k H1 H2. apply index_set_subpixel in H1, H2. lia.
Qed.

(** C4, as stated, fails: for column 1 the tuple is [(1, 3, 2)], whose second
    element exceeds the first by 2 and whose third is below its second. *)
Lemma subpixel_indices_not_increasing :
  get_subpixel_indices 1 = (1, 3, 2) ∧
  ¬ (∀ col_num, 1 ≤ col_num →
       let '(a, b, c) := get_subpixel_indices col_num in
       a < b ∧ b < c ∧ b = a + 1 ∧ c = a + 2).
Proof.
  split; [reflexivity |]. intros H. specialize (H 1). cbn in H. lia.
Qed.

(** C4, amended: for every [col_num >= 1] the three indices are pairwise
    distinct and fill the contiguous block of three columns that starts at
    [3 * col_num - 2]; in positional order the first is the start of the
    block, the second exceeds it by exactly 2 and the third by exactly 1. *)
Theorem subpixel_indices_contiguous_block (col_num : Z) :
  1 ≤ col_num →
  ∃ a b c,
    get_subpixel_indices col_num = (a, b, c) ∧
    a = 3 * col_num - 2 ∧ 1 ≤ a ∧
    b = a + 2 ∧ c = a + 1 ∧
    a < c < b ∧
    (∀ k, k ∈ index_set (a, b, c) ↔ a ≤ k ≤ a + 2).
Proof.
  intros Hc. eexists _, _, _. split; [apply get_subpixel_indices_eq |].
  split_and!; try lia. intros k. cbn.
  rewrite !elem_of_union, !elem_of_singleton. lia.
Qed.

Lemma subpixel_indices_contiguous_block_witness :
  1 ≤ 2 ∧ get_subpixel_indices 2 = (4, 6, 5).
Proof.
  assert (1 ≤ 2) as H by lia. split; [exact H |].
  destruct (subpixel_indices_contiguous_block 2 H)
    as (a & b & c & E & -> & _ & -> & -> & _).
  exact E.
Defined.

(** * Running the effectful code *)

(** The state while [main] renders: one workbook with its single sheet. *)
Definition render_state (fmt : SheetFormatProperties) (cs : gmap (Z * Z) Cell)
    (fs : gmap string Workbook) (evs : list Event) : State :=
  {| heap := [{| sheets := [{| sheet_format := fmt; cells := cs |}];
                 active := 0 |}];
     files := fs; effects := evs |}.

(** The reference [ws] of [main]: the first sheet of the first workbook. *)
Definition ws0 : ws_ref := (0%nat, 0%nat).

Definition solid (colour : string) : Cell :=
  {| fill := {| start_color := colour; end_color := colour;
                fill_type := Some "solid" |} |}.

(** What rendering one pixel does to the cells and which fills it issues. *)
Definition pixel_cells (row_num col_num : Z) (px : rgb)
    (cs : gmap (Z * Z) Cell) : gmap (Z * Z) Cell :=
  let '(k1, k2, k3) := get_subpixel_indices col_num in
  let '(c1, c2, c3) := rgb_to_hex px in
  <[(row_num, k3) := solid c3]>
    (<[(row_num, k2) := solid c2]> (<[(row_num, k1) := solid c1]> cs)).

Definition pixel_fills (row_num col_num : Z) (px : rgb) : list Event :=
  let '(k1, k2, k3) := get_subpixel_indices col_num in
  let '(c1, c2, c3) := rgb_to_hex px in
  [EvFill row_num k1 c1; EvFill row_num k2 c2; EvFill row_num k3 c3].

Section Run.
Context (fmt : SheetFormatProperties) (fs : gmap string Workbook).

Local Abbreviation st := (render_state fmt).

Lemma create_then_fill (cs : gmap (Z * Z) Cell) k c :
  alter (λ _, c) k
    (match cs !! k with Some _ => cs | None => <[k := default_cell]> cs end)
  = <[k := c]> cs.
Proof.
  apply map_eq. intros j. destruct (decide (k = j)) as [<- | Hne].
  - rewrite lookup_alter_eq, lookup_insert_eq.
    destruct (cs !! k) eqn:E; [by rewrite E | by rewrite lookup_insert_eq].
  - rewrite lookup_alter_ne, lookup_insert_ne by done.
    destruct (cs !! k); [done | by rewrite lookup_insert_ne].
Qed.

Lemma fill_subpixel_run row_num k colour cs evs :
  1 ≤ row_num → 1 ≤ k →
  fill_subpixel (ws_cell ws0 row_num) k colour (st cs fs evs)
  = (inr tt, st (<[(row_num, k) := solid colour]> cs) fs
                (evs ++ [EvFill row_num k colour])).
Proof.
  intros Hr Hk. unfold fill_subpixel, ws_cell.
  replace ((row_num <? 1) || (k <? 1)) with false
    by (symmetry; apply orb_false_intro; apply Z.ltb_ge; lia).
  cbn. unfold render_state. by rewrite create_then_fill.
Qed.

Lemma fill_pixel_run row_num k1 k2 k3 c1 c2 c3 cs evs :
  1 ≤ row_num → 1 ≤ k1 → 1 ≤ k2 → 1 ≤ k3 →
  fill_pixel ws0 row_num (k1, k2, k3) (c1, c2, c3) (st cs fs evs)
  = (inr tt,
     st (<[(row_num, k3) := solid c3]>
           (<[(row_num, k2) := solid c2]> (<[(row_num, k1) := solid c1]> cs)))
        fs
        (evs ++ [EvFill row_num k1 c1; EvFill row_num k2 c2;
                 EvFill row_num k3 c3])).
Proof.
  intros Hr H1 H2 H3. unfold fill_pixel. cbn [zip3 for_each].
  unfold bind at 1. rewrite fill_subpixel_run by done.
  unfold bind at 1. rewrite fill_subpixel_run by done.
  unfold bind at 1. rewrite fill_subpixel_run by done.
  unfold ret. by rewrite <- !app_assoc.
Qed.

(** One iteration of the inner loop. *)
Lemma render_pixel_run rgb_im height bar i col_num row_num px cs evs :
  getpixel rgb_im (col_num - 1, row_num - 1) = inr px →
  1 ≤ row_num → 1 ≤ col_num →
  0 ≤ i * height + row_num ≤ max_value bar →
  render_pixel ws0 rgb_im height bar i col_num
    (get_subpixel_indices col_num) row_num (st cs fs evs)
  = (inr tt,
     st (pixel_cells row_num col_num px cs) fs
        (evs ++ pixel_fills row_num col_num px
             ++ [EvProgress (i * height + row_num)])).
Proof.
  intros Hpx Hr Hc Hit. unfold render_pixel, Image_getpixel.
  rewrite Hpx. unfold bind at 1, ret at 1. cbv beta iota.
  unfold pixel_cells, pixel_fills. rewrite get_subpixel_indices_eq.
  destruct (rgb_to_hex px) as [[c1 c2] c3].
  unfold bind at 1. rewrite fill_pixel_run by lia.
  unfold progress_update.
  replace ((0 <=? i * height + row_num)
           && (i * height + row_num <=? max_value bar)) with true
    by (symmetry; apply andb_true_intro; split; apply Z.leb_le; lia).
  unfold emit, modify, render_state. cbn. by rewrite <- app_assoc.
Qed.

(** A loop whose every iteration succeeds and acts on the cells by [fc] and
    on the effects by appending [fe] is the fold of [fc] and the
    concatenation of [fe]. *)
Lemma for_each_run {A} (l : list A) (body : A → M unit)
    (fc : A → gmap (Z * Z) Cell → gmap (Z * Z) Cell) (fe : A → list Event) :
  (∀ x cs evs, x ∈ l →
     body x (st cs fs evs) = (inr tt, st (fc x cs) fs (evs ++ fe x))) →
  ∀ cs evs,
    for_each l body (st cs fs evs)
    = (inr tt, st (foldl (flip fc) cs l) fs (evs ++ concat (fe <$> l))).
Proof.
  induction l as [| x l IH]; intros Hbody cs evs.
  - cbn. unfold ret. by rewrite app_nil_r.
  - cbn [for_each]. unfold bind. rewrite Hbody by left.
    rewrite IH by (intros; apply Hbody; by right).
    cbn. by rewrite <- app_assoc.
Qed.

End Run.

(** ** The whole image *)

(** The pixel [getpixel] answers with; black where it raises. *)
Definition pixel_of (rgb_im : RGBImage) (x y : Z) : rgb :=
  match getpixel rgb_im (x, y) with
  | inr px => px
  | inl _ => (0, 0, 0)
  end.

(** Every coordinate inside the image can be read. *)
Definition readableb (im : Image) : bool :=
  let '(w, h) := size im in
  forallb (λ x,
    forallb (λ y,
      match getpixel (convert_RGB im) (x, y) with
      | inr _ => true
      | inl _ => false
      end) (range 0 h)) (range 0 w).

Lemma readable_pixel im w h x y :
  size im = (w, h) → readableb im = true →
  0 ≤ x < w → 0 ≤ y < h →
  getpixel (convert_RGB im) (x, y) = inr (pixel_of (convert_RGB im) x y).
Proof.
  intros Hsize Hread Hx Hy. unfold readableb in Hread. rewrite Hsize in Hread.
  rewrite forallb_forall in Hread.
  specialize (Hread x). rewrite <- list_elem_of_In, elem_of_range in Hread.
  specialize (Hread Hx). rewrite forallb_forall in Hread.
  specialize (Hread y). rewrite <- list_elem_of_In, elem_of_range in Hread.
  specialize (Hread Hy). unfold pixel_of.
  by destruct (getpixel (convert_RGB im) (x, y)).
Qed.

(** What the inner loop does for one image column ... *)
Definition column_cells (rgb_im : RGBImage) (height col_num : Z)
    (cs : gmap (Z * Z) Cell) : gmap (Z * Z) Cell :=
  foldl (flip (λ r, pixel_cells r col_num (pixel_of rgb_im (col_num - 1) (r - 1))))
    cs (range 1 (height + 1)).

Definition column_events (rgb_im : RGBImage) (height i col_num : Z)
    : list Event :=
  concat ((λ r, pixel_fills r col_num (pixel_of rgb_im (col_num - 1) (r - 1))
                ++ [EvProgress (i * height + r)])
          <$> range 1 (height + 1)).

(** ... and the outer loop for the whole image. *)
Definition image_cells (im : Image) : gmap (Z * Z) Cell :=
  let '(w, h) := size im in
  foldl (flip (λ ic : Z * Z, column_cells (convert_RGB im) h ic.2))
    ∅ (enumerate (range 1 (w + 1))).

Definition image_events (im : Image) : list Event :=
  let '(w, h) := size im in
  concat ((λ ic : Z * Z, column_events (convert_RGB im) h ic.1 ic.2)
          <$> enumerate (range 1 (w + 1))).

Lemma elem_of_enumerate_range i c lo hi :
  (i, c) ∈ enumerate (range lo hi) → c = lo + i ∧ 0 ≤ i < hi - lo.
Proof.
  unfold enumerate, range. intros [n Hn]%list_elem_of_lookup.
  apply lookup_zip_with_Some in Hn as (i' & c' & [= -> ->] & Hi & Hc).
  apply lookup_seqZ in Hi as [-> Hi], Hc as [-> Hc]. lia.
Qed.

Lemma render_column_run fmt fs im w h i c cs evs :
  size im = (w, h) → readableb im = true →
  (i, c) ∈ enumerate (range 1 (w + 1)) →
  render_column ws0 (convert_RGB im) h {| max_value := w * h |} (i, c)
    (render_state fmt cs fs evs)
  = (inr tt,
     render_state fmt (column_cells (convert_RGB im) h c cs) fs
       (evs ++ column_events (convert_RGB im) h i c)).
Proof.
  intros Hsize Hread [-> Hi]%elem_of_enumerate_range.
  unfold render_column, column_cells, column_events.
  apply (for_each_run fmt fs (range 1 (h + 1)) _
           (λ r, pixel_cells r (1 + i)
                   (pixel_of (convert_RGB im) (1 + i - 1) (r - 1)))).
  intros r cs' evs' Hr%elem_of_range.
  apply render_pixel_run; cbn; try lia; try nia.
  apply (readable_pixel im w h); (done || lia).
Qed.

(** The workbook [main] builds from a readable image. *)
Definition rendered_workbook (im : Image) : Workbook :=
  {| sheets := [{| sheet_format := grid_format; cells := image_cells im |}];
     active := 0 |}.

(** The workbook as [main] holds it before any pixel is rendered. *)
Definition configured_workbook : Workbook :=
  {| sheets := [{| sheet_format := grid_format; cells := ∅ |}]; active := 0 |}.

Lemma render_image_run fmt fs im w h cs evs :
  size im = (w, h) → readableb im = true →
  for_each (enumerate (range 1 (w + 1)))
    (render_column ws0 (convert_RGB im) h {| max_value := w * h |})
    (render_state fmt cs fs evs)
  = (inr tt,
     render_state fmt
       (foldl (flip (λ ic : Z * Z, column_cells (convert_RGB im) h ic.2))
          cs (enumerate (range 1 (w + 1))))
       fs
       (evs ++ concat ((λ ic : Z * Z, column_events (convert_RGB im) h ic.1 ic.2)
                       <$> enumerate (range 1 (w + 1))))).
Proof.
  intros Hsize Hread.
  apply (for_each_run fmt fs _ _
           (λ ic : Z * Z, column_cells (convert_RGB im) h ic.2)
           (λ ic : Z * Z, column_events (convert_RGB im) h ic.1 ic.2)).
  intros [i c] cs' evs' Hic. by apply (render_column_run fmt fs im w h).
Qed.

Lemma setup_run fs :
  set_sheet_format ws0 grid_format
    {| heap := [new_workbook]; files := fs; effects := [] |}
  = (inr tt, render_state grid_format ∅ fs [EvSheetFormat grid_format]).
Proof. reflexivity. Qed.

(** [main] up to the point where the image has been opened. *)
Lemma main_opened env inp dest fs im w h :
  image_open env inp = Some im → size im = (w, h) →
  main env inp dest (init_state fs)
  = (with_ProgressBar (w * h)
       (λ progress_bar,
          for_each (enumerate (range 1 (w + 1)))
            (render_column ws0 (convert_RGB im) h progress_bar)) >>
     print ("Saving file to " +:+ dest) >>
     Workbook_save env 0%nat dest)
      (render_state grid_format ∅ fs [EvSheetFormat grid_format]).
Proof.
  intros Hopen Hsize. unfold main, Image_open. rewrite Hopen.
  unfold bind at 1. cbn [Workbook_new init_state heap files effects length app].
  unfold bind at 1. unfold wb_active at 1, gets at 1. cbv beta iota.
  change (active (deref 0%nat _)) with 0%nat. fold ws0.
  unfold bind at 1. rewrite setup_run.
  unfold bind at 1. unfold bind at 1. unfold ret at 1. rewrite Hsize.
  reflexivity.
Qed.

(** [main] on a readable image. *)
Lemma main_run env inp dest fs im :
  image_open env inp = Some im → readableb im = true →
  main env inp dest (init_state fs)
  = if writable env dest then
      (inr tt,
       {| heap := [rendered_workbook im];
          files := <[dest := rendered_workbook im]> fs;
          effects := EvSheetFormat grid_format :: image_events im
                     ++ [EvProgressFinish false;
                         EvPrint ("Saving file to " +:+ dest); EvSave dest] |})
    else
      (inl SaveError,
       {| heap := [rendered_workbook im]; files := fs;
          effects := EvSheetFormat grid_format :: image_events im
                     ++ [EvProgressFinish false;
                         EvPrint ("Saving file to " +:+ dest)] |}).
Proof.
  intros Hopen Hread. destruct (size im) as [w h] eqn:Hsize.
  rewrite (main_opened env inp dest fs im w h) by done.
  unfold bind at 1, with_ProgressBar.
  rewrite (render_image_run _ _ im w h) by done.
  unfold rendered_workbook, image_cells, image_events. rewrite Hsize.
  unfold Workbook_save. destruct (writable env dest).
  - unfold modify, deref. cbn. by rewrite <- !app_assoc.
  - unfold raise. cbn. by rewrite <- !app_assoc.
Qed.

(** [main] when the input cannot be opened. *)
Lemma main_load_error env inp dest fs :
  image_open env inp = None →
  main env inp dest (init_state fs)
  = (inl LoadError,
     {| heap := [configured_workbook]; files := fs;
        effects := [EvSheetFormat grid_format] |}).
Proof.
  intros Hopen. unfold main, Image_open. rewrite Hopen. reflexivity.
Qed.

(** ** Projections of the effects *)

(** The fill instructions issued, as (row, column, colour) triples. *)
Definition fills_of (evs : list Event) : list (Z * Z * string) :=
  omap (λ e, match e with
             | EvFill r k c => Some (r, k, c)
             | _ => None
             end) evs.

(** The paths saved to. *)
Definition saves_of (evs : list Event) : list string :=
  omap (λ e, match e with EvSave p => Some p | _ => None end) evs.

(** The sheet formats assigned. *)
Definition formats_of (evs : list Event) : list SheetFormatProperties :=
  omap (λ e, match e with EvSheetFormat p => Some p | _ => None end) evs.

Lemma fills_of_app evs1 evs2 :
  fills_of (evs1 ++ evs2) = fills_of evs1 ++ fills_of evs2.
Proof. apply omap_app. Qed.

Lemma pixel_fills_eq r c px :
  pixel_fills r c px
  = [EvFill r (3 * c - 2) (rgb_to_hex px).1.1;
     EvFill r (3 * c) (rgb_to_hex px).1.2;
     EvFill r (3 * c - 1) (rgb_to_hex px).2].
Proof.
  unfold pixel_fills. rewrite get_subpixel_indices_eq.
  by destruct (rgb_to_hex px) as [[c1 c2] c3].
Qed.

Lemma pixel_cells_eq r c px cs :
  pixel_cells r c px cs
  = <[(r, 3 * c - 1) := solid (rgb_to_hex px).2]>
      (<[(r, 3 * c) := solid (rgb_to_hex px).1.2]>
         (<[(r, 3 * c - 2) := solid (rgb_to_hex px).1.1]> cs)).
Proof.
  unfold pixel_cells. rewrite get_subpixel_indices_eq.
  by destruct (rgb_to_hex px) as [[c1 c2] c3].
Qed.

(** ** Where a pixel's fills sit in the run of [main] *)

Lemma elem_of_enumerate_range_2 i lo hi :
  0 ≤ i < hi - lo → (i, lo + i) ∈ enumerate (range lo hi).
Proof.
  intros Hi. unfold enumerate, range.
  apply (list_elem_of_lookup_2 _ (Z.to_nat i)).
  apply lookup_zip_with_Some. exists i, (lo + i). split; [done |].
  rewrite length_seqZ. split; apply lookup_seqZ; lia.
Qed.

Lemma concat_fmap_split {A B} (f : A → list B) (l : list A) (x : A) :
  x ∈ l → ∃ pre post, concat (f <$> l) = pre ++ f x ++ post.
Proof.
  intros (l1 & l2 & ->)%list_elem_of_split.
  exists (concat (f <$> l1)), (concat (f <$> l2)).
  by rewrite fmap_app, concat_app.
Qed.

(** The fills of the pixel at 0-indexed [(x, y)] are issued, one after the
    other, somewhere in the rendering of the image. *)
Lemma image_events_pixel im w h x y :
  size im = (w, h) → 0 ≤ x < w → 0 ≤ y < h →
  ∃ pre post,
    image_events im
    = pre ++ pixel_fills (y + 1) (x + 1) (pixel_of (convert_RGB im) x y)
          ++ post.
Proof.
  intros Hsize Hx Hy. unfold image_events. rewrite Hsize.
  destruct (concat_fmap_split
              (λ ic : Z * Z, column_events (convert_RGB im) h ic.1 ic.2)
              (enumerate (range 1 (w + 1))) (x, 1 + x))
    as (pre1 & post1 & ->); [apply elem_of_enumerate_range_2; lia |].
  cbn [fst snd]. unfold column_events.
  destruct (concat_fmap_split
              (λ r, pixel_fills r (1 + x)
                      (pixel_of (convert_RGB im) (1 + x - 1) (r - 1))
                    ++ [EvProgress (x * h + r)])
              (range 1 (h + 1)) (y + 1))
    as (pre2 & post2 & ->); [apply elem_of_range; lia |].
  replace (1 + x - 1) with x by lia. replace (y + 1 - 1) with y by lia.
  replace (1 + x) with (x + 1) by lia.
  exists (pre1 ++ pre2), ([EvProgress (x * h + (y + 1))] ++ post2 ++ post1).
  by rewrite <- !app_assoc.
Qed.

(** The fills [main] issues are those of rendering the image, whether or not
    the save then succeeds. *)
Lemma main_fills env inp dest fs im :
  image_open env inp = Some im → readableb im = true →
  fills_of (effects (main env inp dest (init_state fs)).2)
  = fills_of (image_events im).
Proof.
  intros Hopen Hread. rewrite (main_run env inp dest fs im Hopen Hread).
  destruct (writable env dest); cbn [snd effects];
    change (EvSheetFormat grid_format :: ?l)
      with ([EvSheetFormat grid_format] ++ l);
    rewrite !fills_of_app; cbn; by rewrite app_nil_r.
Qed.

Lemma main_heap env inp dest fs im :
  image_open env inp = Some im → readableb im = true →
  heap (main env inp dest (init_state fs)).2 = [rendered_workbook im].
Proof.
  intros Hopen Hread. rewrite (main_run env inp dest fs im Hopen Hread).
  by destruct (writable env dest).
Qed.

(** * The claims about the pipeline *)

(** Evaluate the loop ranges of an image whose size is known. *)
Ltac eval_ranges :=
  repeat match goal with
         | |- context [enumerate (range ?a ?b)] =>
             let l := eval vm_compute in (enumerate (range a b)) in
             change (enumerate (range a b)) with l
         | |- context [range ?a ?b] =>
             let l := eval vm_compute in (range a b) in
             change (range a b) with l
         end.

Lemma readable_one_pixel im px :
  size im = (1, 1) → getpixel (convert_RGB im) (0, 0) = inr px →
  readableb im = true.
Proof.
  intros Hsize Hpx. unfold readableb. rewrite Hsize. eval_ranges.
  cbn. by rewrite Hpx.
Qed.

(** C1: a 1-by-1 image whose pixel is (255, 128, 0) yields a worksheet with
    exactly three cells, at row 1 and columns 1, 2, 3, filled "FF0000",
    "000000" and "008000"; no other cell exists, so none has a fill. *)
Theorem one_pixel_worksheet (env : Env) (inp dest : string)
    (fs : gmap string Workbook) (im : Image) :
  image_open env inp = Some im →
  size im = (1, 1) →
  getpixel (convert_RGB im) (0, 0) = inr (255, 128, 0) →
  writable env dest = true →
  ∃ st' ws,
    main env inp dest (init_state fs) = (inr tt, st') ∧
    files st' !! dest = Some {| sheets := [ws]; active := 0 |} ∧
    cells ws = {[ (1, 1) := solid "FF0000";
                  (1, 2) := solid "000000";
                  (1, 3) := solid "008000" ]} ∧
    base.size (cells ws) = 3%nat ∧
    (∀ row column,
       is_Some (cells ws !! (row, column)) ↔ row = 1 ∧ 1 ≤ column ≤ 3) ∧
    fills_of (effects st')
    = [(1, 1, "FF0000"); (1, 3, "008000"); (1, 2, "000000")].
Proof.
  intros Hopen Hsize Hpx Hw.
  pose proof (readable_one_pixel im _ Hsize Hpx) as Hread.
  rewrite (main_run env inp dest fs im Hopen Hread), Hw.
  assert (image_cells im
          = {[ (1, 1) := solid "FF0000"; (1, 2) := solid "000000";
               (1, 3) := solid "008000" ]}) as Hcells.
  { unfold image_cells. rewrite Hsize. eval_ranges. cbn.
    unfold column_cells, pixel_of. eval_ranges. cbn.
    change (1 - 1) with 0. rewrite Hpx.
    vm_compute. reflexivity. }
  assert (image_events im
          = [EvFill 1 1 "FF0000"; EvFill 1 3 "008000"; EvFill 1 2 "000000";
             EvProgress 1]) as Hevents.
  { unfold image_events. rewrite Hsize. eval_ranges. cbn.
    unfold column_events, pixel_of. eval_ranges. cbn.
    change (1 - 1) with 0. by rewrite Hpx. }
  eexists _, _. split; [reflexivity |]. cbn [files effects].
  split; [apply lookup_insert_eq |].
  cbn [cells]. rewrite Hcells, Hevents.
  split_and!; try reflexivity.
  intros row column. split.
  - intros [c Hc].
    apply lookup_insert_Some in Hc as [[[= <- <-] _] | [_ Hc]]; [lia |].
    apply lookup_insert_Some in Hc as [[[= <- <-] _] | [_ Hc]]; [lia |].
    apply lookup_singleton_Some in Hc as [[= <- <-] _]. lia.
  - intros [-> Hcol].
    assert (column = 1 ∨ column = 2 ∨ column = 3) as [-> | [-> | ->]] by lia;
      by eexists.
Qed.

Lemma one_pixel_worksheet_witness :
  ∃ st',
    main (env_with "in.png" (image_of_rows 1 1 [[(255, 128, 0)]]))
      "in.png" "out.xlsx" (init_state ∅) = (inr tt, st') ∧
    fills_of (effects st')
    = [(1, 1, "FF0000"); (1, 3, "008000"); (1, 2, "000000")].
Proof.
  destruct (one_pixel_worksheet
              (env_with "in.png" (image_of_rows 1 1 [[(255, 128, 0)]]))
              "in.png" "out.xlsx" ∅ (image_of_rows 1 1 [[(255, 128, 0)]])
              eq_refl eq_refl eq_refl eq_refl)
    as (st' & ws & Hrun & _ & _ & _ & _ & Hfills).
  exists st'. split; assumption.
Defined.

(** C3, as stated, fails: for column 1 the tuple returned is [(1, 3, 2)],
    not [(3c-2, 3c-1, 3c) = (1, 2, 3)]. *)
Lemma subpixel_indices_not_in_column_order :
  get_subpixel_indices 1 = (1, 3, 2) ∧
  get_subpixel_indices 1 ≠ (3 * 1 - 2, 3 * 1 - 1, 3 * 1).
Proof. split; [reflexivity | discriminate]. Qed.

(** C3, amended: for every image column [c >= 1], [get_subpixel_indices c]
    returns [(3c-2, 3c, 3c-1)]; [fill_pixel] consumes its positions against
    the (red, green, blue) strings of [rgb_to_hex], so the red subpixel lands
    in column [3c-2], the blue one in column [3c-1] and the green one in
    column [3c]. *)
Theorem subpixel_columns_red_blue_green (c row_num : Z) (px : rgb)
    (fmt : SheetFormatProperties) (cs : gmap (Z * Z) Cell)
    (fs : gmap string Workbook) (evs : list Event) :
  1 ≤ c → 1 ≤ row_num →
  get_subpixel_indices c = (3 * c - 2, 3 * c, 3 * c - 1) ∧
  ∃ red green blue cs',
    rgb_to_hex px = (red, green, blue) ∧
    fill_pixel ws0 row_num (get_subpixel_indices c) (rgb_to_hex px)
      (render_state fmt cs fs evs)
    = (inr tt,
       render_state fmt cs' fs
         (evs ++ [EvFill row_num (3 * c - 2) red; EvFill row_num (3 * c) green;
                  EvFill row_num (3 * c - 1) blue])) ∧
    cs' !! (row_num, 3 * c - 2) = Some (solid red) ∧
    cs' !! (row_num, 3 * c - 1) = Some (solid blue) ∧
    cs' !! (row_num, 3 * c) = Some (solid green).
Proof.
  intros Hc Hr. split; [apply get_subpixel_indices_eq |].
  rewrite get_subpixel_indices_eq.
  destruct (rgb_to_hex px) as [[red green] blue].
  eexists red, green, blue, _. split; [reflexivity |].
  split; [apply fill_pixel_run; lia |].
  split_and!.
  - rewrite !lookup_insert_ne by (intros [=]; lia). apply lookup_insert_eq.
  - apply lookup_insert_eq.
  - rewrite lookup_insert_ne by (intros [=]; lia). apply lookup_insert_eq.
Qed.

Lemma subpixel_columns_red_blue_green_witness :
  1 ≤ 2 ∧ 1 ≤ 5 ∧ get_subpixel_indices 2 = (4, 6, 5).
Proof.
  assert (1 ≤ 2) as Hc by lia. assert (1 ≤ 5) as Hr by lia.
  split_and!; try assumption.
  exact (proj1 (subpixel_columns_red_blue_green 2 5 (255, 128, 0)
                  grid_format ∅ ∅ [] Hc Hr)).
Defined.

(** C5: distinct image columns get disjoint sets of subpixel columns, and a
    readable 2-by-1 image makes the pipeline issue exactly six fills, at
    pairwise distinct coordinates, which leave exactly six cells in the
    worksheet. *)
Theorem two_pixels_six_cells (c1 c2 : Z) (env : Env) (inp dest : string)
    (fs : gmap string Workbook) (im : Image) :
  1 ≤ c1 → 1 ≤ c2 → c1 ≠ c2 →
  image_open env inp = Some im →
  size im = (2, 1) →
  readableb im = true →
  index_set (get_subpixel_indices c1) ## index_set (get_subpixel_indices c2) ∧
  ∃ ws,
    heap (main env inp dest (init_state fs)).2
    = [{| sheets := [ws]; active := 0 |}] ∧
    let coords := (λ f : Z * Z * string, f.1) <$>
                    fills_of (effects (main env inp dest (init_state fs)).2) in
    length coords = 6%nat ∧ NoDup coords ∧
    base.size (cells ws) = 6%nat ∧
    dom (cells ws) = list_to_set coords.
Proof.
  intros H1 H2 Hne Hopen Hsize Hread.
  split; [by apply subpixel_indices_disjoint |].
  rewrite (main_heap env inp dest fs im Hopen Hread).
  rewrite (main_fills env inp dest fs im Hopen Hread).
  assert (fills_of (image_events im)
          = [(1, 1, (rgb_to_hex (pixel_of (convert_RGB im) 0 0)).1.1);
             (1, 3, (rgb_to_hex (pixel_of (convert_RGB im) 0 0)).1.2);
             (1, 2, (rgb_to_hex (pixel_of (convert_RGB im) 0 0)).2);
             (1, 4, (rgb_to_hex (pixel_of (convert_RGB im) 1 0)).1.1);
             (1, 6, (rgb_to_hex (pixel_of (convert_RGB im) 1 0)).1.2);
             (1, 5, (rgb_to_hex (pixel_of (convert_RGB im) 1 0)).2)])
    as Hfills.
  { unfold image_events. rewrite Hsize. eval_ranges.
    cbn [fmap list_fmap concat app fst snd]. unfold column_events.
    eval_ranges. cbn [fmap list_fmap concat app fst snd].
    rewrite !pixel_fills_eq. reflexivity. }
  assert (image_cells im
          = <[(1, 5) := solid (rgb_to_hex (pixel_of (convert_RGB im) 1 0)).2]>
           (<[(1, 6) := solid (rgb_to_hex (pixel_of (convert_RGB im) 1 0)).1.2]>
           (<[(1, 4) := solid (rgb_to_hex (pixel_of (convert_RGB im) 1 0)).1.1]>
           (<[(1, 2) := solid (rgb_to_hex (pixel_of (convert_RGB im) 0 0)).2]>
           (<[(1, 3) := solid (rgb_to_hex (pixel_of (convert_RGB im) 0 0)).1.2]>
           (<[(1, 1) := solid (rgb_to_hex (pixel_of (convert_RGB im) 0 0)).1.1]>
              ∅))))))
    as Hcells.
  { unfold image_cells. rewrite Hsize. eval_ranges.
    cbn [foldl flip fst snd]. unfold column_cells.
    eval_ranges. cbn [foldl flip fst snd].
    rewrite !pixel_cells_eq. reflexivity. }
  exists {| sheet_format := grid_format; cells := image_cells im |}.
  split; [reflexivity |].
  rewrite Hfills. cbn [cells]. rewrite Hcells. cbn [fmap list_fmap fst length].
  split_and!.
  - reflexivity.
  - repeat (constructor; [rewrite ?elem_of_cons, elem_of_nil; intros H;
                          repeat destruct H as [H | H]; congruence |]).
    constructor.
  - rewrite !map_size_insert_None; [reflexivity | ..];
      rewrite ?lookup_insert_ne by discriminate; apply lookup_empty.
  - rewrite !dom_insert_L, dom_empty_L. cbn. set_solver.
Qed.

Lemma two_pixels_six_cells_witness :
  let im := image_of_rows 2 1 [[(255, 128, 0); (0, 64, 255)]] in
  let run := main (env_with "in.png" im) "in.png" "out.xlsx" (init_state ∅) in
  (1 ≤ 1 ∧ 1 ≤ 2 ∧ 1 ≠ 2) ∧
  index_set (get_subpixel_indices 1) ## index_set (get_subpixel_indices 2) ∧
  length ((λ f : Z * Z * string, f.1) <$> fills_of (effects run.2)) = 6%nat.
Proof.
  intros im run.
  assert (1 ≤ 1 ∧ 1 ≤ 2 ∧ 1 ≠ 2) as H by lia.
  split; [exact H |]. destruct H as (H1 & H2 & Hne).
  destruct (two_pixels_six_cells 1 2 (env_with "in.png" im) "in.png"
              "out.xlsx" ∅ im H1 H2 Hne eq_refl eq_refl eq_refl)
    as (Hdisj & ws & _ & Hlen & _).
  split; [exact Hdisj | exact Hlen].
Defined.

(** C6: the three fills issued for the pixel at 0-indexed [(x, y)] of a
    readable image all target row [y + 1]: the loop body of [main] for that
    pixel issues exactly three fills, all in that row, and they appear
    together in the run of [main]. *)
Theorem pixel_fills_same_row (env : Env) (inp dest : string)
    (fs : gmap string Workbook) (im : Image) (w h x y : Z) :
  image_open env inp = Some im →
  size im = (w, h) → readableb im = true →
  0 ≤ x < w → 0 ≤ y < h →
  ∃ k1 k2 k3 c1 c2 c3,
    (∀ fmt cs fs' evs, ∃ st',
       render_pixel ws0 (convert_RGB im) h {| max_value := w * h |} x (x + 1)
         (get_subpixel_indices (x + 1)) (y + 1) (render_state fmt cs fs' evs)
       = (inr tt, st') ∧
       fills_of (effects st')
       = fills_of evs ++ [(y + 1, k1, c1); (y + 1, k2, c2); (y + 1, k3, c3)]) ∧
    ∃ before after,
      fills_of (effects (main env inp dest (init_state fs)).2)
      = before ++ [(y + 1, k1, c1); (y + 1, k2, c2); (y + 1, k3, c3)] ++ after.
Proof.
  intros Hopen Hsize Hread Hx Hy.
  pose proof (readable_pixel im w h x y Hsize Hread Hx Hy) as Hpx.
  eexists _, _, _, _, _, _. split.
  - intros fmt cs fs' evs. eexists. split.
    + apply (render_pixel_run fmt fs' (convert_RGB im) h _ x (x + 1) (y + 1)
               (pixel_of (convert_RGB im) x y)); cbn; try lia; try nia.
      by replace (x + 1 - 1) with x by lia; replace (y + 1 - 1) with y by lia.
    + unfold render_state, effects. rewrite !fills_of_app, pixel_fills_eq.
      reflexivity.
  - rewrite (main_fills env inp dest fs im Hopen Hread).
    destruct (image_events_pixel im w h x y Hsize Hx Hy) as (pre & post & ->).
    exists (fills_of pre), (fills_of post).
    by rewrite !fills_of_app, pixel_fills_eq.
Qed.

Lemma pixel_fills_same_row_witness :
  let im := image_of_rows 2 2 [[(1, 2, 3); (4, 5, 6)]; [(7, 8, 9); (10, 11, 12)]] in
  (0 ≤ 1 < 2 ∧ 0 ≤ 1 < 2) ∧
  ∃ k1 k2 k3 c1 c2 c3 before after,
    fills_of (effects (main (env_with "in.png" im) "in.png" "out.xlsx"
                         (init_state ∅)).2)
    = before ++ [(1 + 1, k1, c1); (1 + 1, k2, c2); (1 + 1, k3, c3)] ++ after.
Proof.
  intros im. assert (0 ≤ 1 < 2) as H by lia. split; [by split |].
  destruct (pixel_fills_same_row (env_with "in.png" im) "in.png" "out.xlsx" ∅
              im 2 2 1 1 eq_refl eq_refl eq_refl H H)
    as (k1 & k2 & k3 & c1 & c2 & c3 & _ & before & after & Hmain).
  by exists k1, k2, k3, c1, c2, c3, before, after.
Defined.

(** C7: when the input path cannot be opened as an image the run fails with
    the load error; the only effect so far is the grid configuration: no fill
    has been issued, no cell exists, nothing was saved and the files on disk
    are untouched. *)
Theorem load_error_writes_nothing (env : Env) (inp dest : string)
    (fs : gmap string Workbook) :
  image_open env inp = None →
  ∃ st',
    main env inp dest (init_state fs) = (inl LoadError, st') ∧
    files st' = fs ∧
    effects st' = [EvSheetFormat grid_format] ∧
    fills_of (effects st') = [] ∧
    saves_of (effects st') = [] ∧
    Forall (λ wb, Forall (λ ws, cells ws = ∅) (sheets wb)) (heap st').
Proof.
  intros Hopen. rewrite main_load_error by done.
  eexists. split; [reflexivity |]. split_and!; try reflexivity.
  repeat constructor.
Qed.

Lemma load_error_writes_nothing_witness :
  ∃ st',
    main (env_with "in.png" (image_of_rows 1 1 [[(255, 128, 0)]]))
      "missing.png" "out.xlsx" (init_state ∅) = (inl LoadError, st') ∧
    files st' = ∅.
Proof.
  destruct (load_error_writes_nothing
              (env_with "in.png" (image_of_rows 1 1 [[(255, 128, 0)]]))
              "missing.png" "out.xlsx" ∅ eq_refl)
    as (st' & Hrun & Hfiles & _).
  by exists st'.
Defined.

(** C8: rendering one pixel is deterministic.  Two runs, on possibly
    different images and from possibly different worksheet states, issue the
    same three fill instructions for a pixel with the same value at the same
    coordinates. *)
Theorem pixel_rendering_deterministic
    (fmt1 fmt2 : SheetFormatProperties) (im1 im2 : Image)
    (w1 h1 w2 h2 x y : Z) (cs1 cs2 : gmap (Z * Z) Cell)
    (fs1 fs2 : gmap string Workbook) (evs1 evs2 : list Event) :
  size im1 = (w1, h1) → readableb im1 = true → 0 ≤ x < w1 → 0 ≤ y < h1 →
  size im2 = (w2, h2) → readableb im2 = true → 0 ≤ x < w2 → 0 ≤ y < h2 →
  getpixel (convert_RGB im1) (x, y) = getpixel (convert_RGB im2) (x, y) →
  ∃ st1 st2 f1 f2 f3,
    render_pixel ws0 (convert_RGB im1) h1 {| max_value := w1 * h1 |} x (x + 1)
      (get_subpixel_indices (x + 1)) (y + 1) (render_state fmt1 cs1 fs1 evs1)
    = (inr tt, st1) ∧
    render_pixel ws0 (convert_RGB im2) h2 {| max_value := w2 * h2 |} x (x + 1)
      (get_subpixel_indices (x + 1)) (y + 1) (render_state fmt2 cs2 fs2 evs2)
    = (inr tt, st2) ∧
    fills_of (effects st1) = fills_of evs1 ++ [f1; f2; f3] ∧
    fills_of (effects st2) = fills_of evs2 ++ [f1; f2; f3].
Proof.
  intros Hs1 Hr1 Hx1 Hy1 Hs2 Hr2 Hx2 Hy2 Hsame.
  pose proof (readable_pixel im1 w1 h1 x y Hs1 Hr1 Hx1 Hy1) as Hp1.
  pose proof (readable_pixel im2 w2 h2 x y Hs2 Hr2 Hx2 Hy2) as Hp2.
  assert (pixel_of (convert_RGB im1) x y = pixel_of (convert_RGB im2) x y)
    as Hpx by (unfold pixel_of; by rewrite Hsame).
  eexists _, _, _, _, _. split_and!.
  - apply (render_pixel_run fmt1 fs1 (convert_RGB im1) h1 _ x (x + 1) (y + 1)
             (pixel_of (convert_RGB im1) x y)); cbn; try lia; try nia.
    by replace (x + 1 - 1) with x by lia; replace (y + 1 - 1) with y by lia.
  - apply (render_pixel_run fmt2 fs2 (convert_RGB im2) h2 _ x (x + 1) (y + 1)
             (pixel_of (convert_RGB im2) x y)); cbn; try lia; try nia.
    by replace (x + 1 - 1) with x by lia; replace (y + 1 - 1) with y by lia.
  - unfold render_state, effects. rewrite !fills_of_app, pixel_fills_eq.
    reflexivity.
  - unfold render_state, effects. rewrite !fills_of_app, pixel_fills_eq.
    by rewrite Hpx.
Qed.

Lemma pixel_rendering_deterministic_witness :
  let im1 := image_of_rows 2 1 [[(9, 9, 9); (255, 128, 0)]] in
  let im2 := image_of_rows 3 2 [[(1, 2, 3); (255, 128, 0); (0, 0, 0)];
                                [(4, 5, 6); (7, 8, 9); (10, 11, 12)]] in
  (0 ≤ 1 < 2 ∧ 0 ≤ 0 < 1 ∧ 0 ≤ 1 < 3 ∧ 0 ≤ 0 < 2) ∧
  ∃ st1 st2 f1 f2 f3,
    render_pixel ws0 (convert_RGB im1) 1 {| max_value := 2 * 1 |} 1 (1 + 1)
      (get_subpixel_indices (1 + 1)) (0 + 1) (render_state grid_format ∅ ∅ [])
    = (inr tt, st1) ∧
    render_pixel ws0 (convert_RGB im2) 2 {| max_value := 3 * 2 |} 1 (1 + 1)
      (get_subpixel_indices (1 + 1)) (0 + 1)
      (render_state grid_format {[ (7, 7) := solid "ABCDEF" ]} ∅
         [EvFill 7 7 "ABCDEF"])
    = (inr tt, st2) ∧
    fills_of (effects st1) = fills_of [] ++ [f1; f2; f3] ∧
    fills_of (effects st2) = fills_of [EvFill 7 7 "ABCDEF"] ++ [f1; f2; f3].
Proof.
  intros im1 im2.
  assert (0 ≤ 1 < 2 ∧ 0 ≤ 0 < 1 ∧ 0 ≤ 1 < 3 ∧ 0 ≤ 0 < 2) as H by lia.
  split; [exact H |]. destruct H as (Hx1 & Hy1 & Hx2 & Hy2).
  exact (pixel_rendering_deterministic grid_format grid_format im1 im2
           2 1 3 2 1 0 ∅ {[ (7, 7) := solid "ABCDEF" ]} ∅ ∅ []
           [EvFill 7 7 "ABCDEF"]
           eq_refl eq_refl Hx1 Hy1 eq_refl eq_refl Hx2 Hy2 eq_refl).
Defined.

(** ** The grid configuration is an invariant of everything after setup *)

(** The sheet formats held in the heap, and those assigned so far. *)
Definition heap_formats (st : State) : list (list SheetFormatProperties) :=
  (λ wb, sheet_format <$> sheets wb) <$> heap st.

Definition format_view (st : State)
    : list (list SheetFormatProperties) * list SheetFormatProperties :=
  (heap_formats st, formats_of (effects st)).

(** A computation that neither assigns a sheet format nor changes one. *)
Definition keeps_format {A} (m : M A) : Prop :=
  ∀ st, format_view (m st).2 = format_view st.

Definition quiet (e : Event) : Prop :=
  match e with EvSheetFormat _ => False | _ => True end.

Section KeepsFormat.

Lemma keeps_ret {A} (a : A) : keeps_format (ret a).
Proof. by intros st. Qed.

Lemma keeps_raise {A} (e : exn) : keeps_format (@raise A e).
Proof. by intros st. Qed.

Lemma keeps_bind {A B} (m : M A) (k : A → M B) :
  keeps_format m → (∀ a, keeps_format (k a)) → keeps_format (bind m k).
Proof.
  intros Hm Hk st. unfold bind. specialize (Hm st).
  destruct (m st) as [[e | a] st1]; cbn in *; [done |].
  by rewrite Hk.
Qed.

Lemma keeps_emit (e : Event) : quiet e → keeps_format (emit e).
Proof.
  intros He st. unfold format_view, heap_formats, formats_of. cbn.
  rewrite omap_app. cbn. destruct e; by rewrite ?app_nil_r.
Qed.

Lemma fmap_alter_same {A B} (f : A → B) (g : A → A) (i : nat) (l : list A) :
  (∀ x, f (g x) = f x) → f <$> alter g i l = f <$> l.
Proof.
  intros Hfg. revert i. induction l as [| x l IH]; intros [| i]; cbn;
    by rewrite ?Hfg, ?IH.
Qed.

Lemma keeps_update_sheet (ws : ws_ref) (f : Worksheet → Worksheet) :
  (∀ s, sheet_format (f s) = sheet_format s) →
  keeps_format (update_sheet ws f).
Proof.
  intros Hf st. unfold format_view, heap_formats. cbn. f_equal.
  apply fmap_alter_same. intros wb. cbn. by apply fmap_alter_same.
Qed.

Lemma keeps_for_each {A} (l : list A) (body : A → M unit) :
  (∀ x, keeps_format (body x)) → keeps_format (for_each l body).
Proof.
  intros Hbody. induction l as [| x l IH]; cbn [for_each].
  - apply keeps_ret.
  - apply keeps_bind; [apply Hbody | intros _; apply IH].
Qed.

Lemma keeps_ws_cell ws row column : keeps_format (ws_cell ws row column).
Proof.
  unfold ws_cell. destruct ((row <? 1) || (column <? 1)).
  - apply keeps_raise.
  - apply keeps_bind; [by apply keeps_update_sheet | intros; apply keeps_ret].
Qed.

Lemma keeps_set_fill c p : keeps_format (set_fill c p).
Proof.
  apply keeps_bind; [by apply keeps_update_sheet | intros; by apply keeps_emit].
Qed.

Lemma keeps_fill_pixel ws row_num idx colours :
  keeps_format (fill_pixel ws row_num idx colours).
Proof.
  apply keeps_for_each. intros [k colour].
  apply keeps_bind; [apply keeps_ws_cell | intros; apply keeps_set_fill].
Qed.

Lemma keeps_getpixel rgb_im xy : keeps_format (Image_getpixel rgb_im xy).
Proof.
  unfold Image_getpixel.
  destruct (getpixel rgb_im xy); [apply keeps_raise | apply keeps_ret].
Qed.

Lemma keeps_progress_update bar value :
  keeps_format (progress_update bar value).
Proof.
  unfold progress_update.
  destruct ((0 <=? value) && (value <=? max_value bar));
    [by apply keeps_emit | apply keeps_raise].
Qed.

Lemma keeps_render_pixel ws rgb_im height bar i col_num idx row_num :
  keeps_format (render_pixel ws rgb_im height bar i col_num idx row_num).
Proof.
  apply keeps_bind; [apply keeps_getpixel | intros px].
  apply keeps_bind; [apply keeps_fill_pixel | intros; apply keeps_progress_update].
Qed.

Lemma keeps_render_column ws rgb_im height bar ic :
  keeps_format (render_column ws rgb_im height bar ic).
Proof.
  destruct ic as [i col_num]. apply keeps_for_each. intros row_num.
  apply keeps_render_pixel.
Qed.

Lemma keeps_with_ProgressBar n body :
  (∀ bar, keeps_format (body bar)) → keeps_format (with_ProgressBar n body).
Proof.
  intros Hbody st. unfold with_ProgressBar.
  specialize (Hbody {| max_value := n |} st).
  destruct (body {| max_value := n |} st) as [[e | []] st1];
    cbn [snd] in *; rewrite <- Hbody.
  - apply (keeps_emit (EvProgressFinish true) I st1).
  - apply (keeps_emit (EvProgressFinish false) I st1).
Qed.

Lemma keeps_save env wb path : keeps_format (Workbook_save env wb path).
Proof.
  unfold Workbook_save. destruct (writable env path); [| apply keeps_raise].
  intros st. unfold format_view, heap_formats, formats_of. cbn.
  rewrite omap_app. cbn. by rewrite app_nil_r.
Qed.

End KeepsFormat.

(** C9: in every run, whatever the image and however the run ends, the sheet
    format is assigned exactly once, to default column width 0.1 and default
    row height 2.5, and that is the format the worksheet ends with. *)
Theorem grid_configured_once (env : Env) (inp dest : string)
    (fs : gmap string Workbook) :
  let st' := (main env inp dest (init_state fs)).2 in
  formats_of (effects st') = [grid_format] ∧
  heap_formats st' = [[grid_format]] ∧
  defaultColWidth grid_format = Some 0.1%float ∧
  defaultRowHeight grid_format = 2.5%float.
Proof.
  cbn zeta. split_and!; try reflexivity.
  all: destruct (image_open env inp) as [im |] eqn:Hopen;
    [| by rewrite main_load_error].
  all: destruct (size im) as [w h] eqn:Hsize.
  all: rewrite (main_opened env inp dest fs im w h Hopen Hsize).
  all: match goal with
       | |- context [(?m ?st).2] =>
           assert (format_view (m st).2 = format_view st) as [= Hh He]
       end.
  1, 3: apply keeps_bind;
    [ apply keeps_with_ProgressBar; intros bar; apply keeps_for_each;
      intros ic; apply keeps_render_column
    | intros _; apply keeps_bind;
      [by apply keeps_emit | intros _; apply keeps_save] ].
  - exact He.
  - exact Hh.
Qed.

(** ** Images without pixels *)

Lemma readable_empty im w h :
  size im = (w, h) → w = 0 ∨ h = 0 → readableb im = true.
Proof.
  intros Hsize Hempty. unfold readableb. rewrite Hsize.
  destruct Hempty as [-> | ->]; [reflexivity |].
  apply forallb_forall. intros x _. reflexivity.
Qed.

Lemma foldl_unchanged {A B} (f : A → B → A) (a : A) (l : list B) :
  (∀ a x, f a x = a) → foldl f a l = a.
Proof.
  intros Hf. revert a. induction l as [| x l IH]; intros a; cbn; [done |].
  by rewrite Hf.
Qed.

Lemma concat_all_nil {A B} (f : A → list B) (l : list A) :
  (∀ x, f x = []) → concat (f <$> l) = [].
Proof.
  intros Hf. induction l as [| x l IH]; cbn; [done |]. by rewrite Hf, IH.
Qed.

Lemma image_cells_empty im w h :
  size im = (w, h) → w = 0 ∨ h = 0 → image_cells im = ∅.
Proof.
  intros Hsize Hempty. unfold image_cells. rewrite Hsize.
  destruct Hempty as [-> | ->]; [reflexivity |].
  by apply foldl_unchanged.
Qed.

Lemma image_events_empty im w h :
  size im = (w, h) → w = 0 ∨ h = 0 → image_events im = [].
Proof.
  intros Hsize Hempty. unfold image_events. rewrite Hsize.
  destruct Hempty as [-> | ->]; [reflexivity |].
  by apply concat_all_nil.
Qed.

(** C10: an image of width 0 or height 0 still goes through: no cell is
    filled, and the workbook saved has its single worksheet configured with
    column width 0.1 and row height 2.5 and holds no cell. *)
Theorem empty_image_completes (env : Env) (inp dest : string)
    (fs : gmap string Workbook) (im : Image) (w h : Z) :
  image_open env inp = Some im →
  size im = (w, h) →
  w = 0 ∨ h = 0 →
  writable env dest = true →
  ∃ st',
    main env inp dest (init_state fs) = (inr tt, st') ∧
    files st' !! dest
    = Some {| sheets := [{| sheet_format :=
                              {| defaultColWidth := Some 0.1%float;
                                 defaultRowHeight := 2.5%float |};
                            cells := ∅ |}];
              active := 0 |} ∧
    fills_of (effects st') = [] ∧
    effects st' = [EvSheetFormat grid_format; EvProgressFinish false;
                   EvPrint ("Saving file to " +:+ dest); EvSave dest].
Proof.
  intros Hopen Hsize Hempty Hw.
  pose proof (readable_empty im w h Hsize Hempty) as Hread.
  rewrite (main_run env inp dest fs im Hopen Hread), Hw.
  unfold rendered_workbook.
  rewrite (image_cells_empty im w h), (image_events_empty im w h) by done.
  eexists. split; [reflexivity |]. cbn [files effects].
  split_and!; [apply lookup_insert_eq | reflexivity | reflexivity].
Qed.

Lemma empty_image_completes_witness :
  (3 = 0 ∨ 0 = 0) ∧
  ∃ st',
    main (env_with "empty.png" (image_of_rows 3 0 [])) "empty.png" "out.xlsx"
      (init_state ∅) = (inr tt, st') ∧
    fills_of (effects st') = [].
Proof.
  assert (3 = 0 ∨ 0 = 0) as H by (right; reflexivity).
  split; [exact H |].
  destruct (empty_image_completes (env_with "empty.png" (image_of_rows 3 0 []))
              "empty.png" "out.xlsx" ∅ (image_of_rows 3 0 []) 3 0
              eq_refl eq_refl H eq_refl)
    as (st' & Hrun & _ & Hfills & _).
  by exists st'.
Defined.

(** * Further properties of the pure helpers *)

(** ** [rgb_to_hex] outside and inside the byte range *)

Lemma range_enum (P : Z → bool) lo hi :
  forallb P (range lo hi) = true → ∀ v, lo ≤ v < hi → P v = true.
Proof.
  intros Hall v Hv. rewrite forallb_forall in Hall.
  apply Hall, list_elem_of_In, elem_of_range, Hv.
Qed.

Lemma string_length_app (s1 s2 : string) :
  String.length (s1 +:+ s2) = (String.length s1 + String.length s2)%nat.
Proof.
  induction s1 as [| c s1 IH]; [done |].
  change (String c s1 +:+ s2) with (String c (s1 +:+ s2)).
  cbn [String.length]. by rewrite IH.
Qed.

Lemma zeros_length k : String.length (PyFormat.zeros k) = k.
Proof. induction k as [| k IH]; cbn; [done | by rewrite IH]. Qed.

Lemma hex_digits_length_ge fuel n acc :
  (String.length acc ≤ String.length (PyFormat.hex_digits fuel n acc))%nat.
Proof.
  revert n acc. induction fuel as [| fuel IH]; intros n acc; cbn; [lia |].
  destruct (n / 16 =? 0); cbn; [lia |].
  etransitivity; [| apply IH]. cbn. lia.
Qed.

Lemma hex_digits_step fuel n acc :
  n / 16 ≠ 0 →
  PyFormat.hex_digits (S fuel) n acc
  = PyFormat.hex_digits fuel (n / 16)
      (String (PyFormat.hex_digit (n mod 16)) acc).
Proof. intros Hn. cbn. by apply Z.eqb_neq in Hn as ->. Qed.

Lemma hex_abs_length_pos n : (1 ≤ String.length (PyFormat.hex_abs n))%nat.
Proof.
  unfold PyFormat.hex_abs. cbn. destruct (Z.abs n / 16 =? 0); cbn; [lia |].
  etransitivity; [| apply hex_digits_length_ge]. cbn. lia.
Qed.

Lemma hex_abs_length_2 n :
  16 ≤ Z.abs n → (2 ≤ String.length (PyFormat.hex_abs n))%nat.
Proof.
  intros Hn. unfold PyFormat.hex_abs.
  assert (4 ≤ Z.log2 (Z.abs n)) by (apply (Z.log2_le_mono 16); lia).
  destruct (Z.to_nat (Z.log2 (Z.abs n))) as [| fuel] eqn:E; [lia |].
  rewrite hex_digits_step by (Z.to_euclidean_division_equations; lia).
  cbn. destruct (Z.abs n / 16 / 16 =? 0); cbn; [lia |].
  etransitivity; [| apply hex_digits_length_ge]. cbn. lia.
Qed.

Lemma hex_abs_length_3 n :
  256 ≤ Z.abs n → (3 ≤ String.length (PyFormat.hex_abs n))%nat.
Proof.
  intros Hn. unfold PyFormat.hex_abs.
  assert (8 ≤ Z.log2 (Z.abs n)) by (apply (Z.log2_le_mono 256); lia).
  destruct (Z.to_nat (Z.log2 (Z.abs n))) as [| [| fuel]] eqn:E; [lia | lia |].
  rewrite !hex_digits_step by (Z.to_euclidean_division_equations; lia).
  cbn. destruct (Z.abs n / 16 / 16 / 16 =? 0); cbn; [lia |].
  etransitivity; [| apply hex_digits_length_ge]. cbn. lia.
Qed.

Lemma format_02X_length n :
  String.length (PyFormat.format_02X n)
  = ((if (n <? 0)%Z then 1 else 0)
     + Nat.max (2 - (if (n <? 0)%Z then 1 else 0))
               (String.length (PyFormat.hex_abs n)))%nat.
Proof.
  unfold PyFormat.format_02X. rewrite !string_length_app, zeros_length.
  destruct (n <? 0); cbn [String.length]; lia.
Qed.

Lemma format_02X_width n :
  (2 ≤ String.length (PyFormat.format_02X n))%nat ∧
  (String.length (PyFormat.format_02X n) = 2%nat ↔ -15 ≤ n ≤ 255).
Proof.
  split.
  - rewrite format_02X_length. pose proof (hex_abs_length_pos n).
    destruct (n <? 0); lia.
  - split.
    + intros Hlen. rewrite format_02X_length in Hlen.
      destruct (Z.ltb_spec n 0) as [Hneg | Hpos].
      * destruct (Z_le_gt_dec (-15) n) as [? | Hlow]; [lia |].
        pose proof (hex_abs_length_2 n). lia.
      * destruct (Z_le_gt_dec n 255) as [? | Hhigh]; [lia |].
        pose proof (hex_abs_length_3 n). lia.
    + intros Hn. apply Nat.eqb_eq.
      apply (range_enum
               (λ n, String.length (PyFormat.format_02X n) =? 2)%nat (-15) 256);
        [vm_compute; reflexivity | lia].
Qed.

(** [rgb_to_hex] neither clamps nor rejects a channel: each string has at
    least six characters, and exactly six just when its channel lies in
    -15..255, the integers [format(n, "02X")] renders in two characters. *)
Theorem rgb_to_hex_six_characters (r g b : Z) :
  ∃ red green blue,
    rgb_to_hex (r, g, b) = (red, green, blue) ∧
    (6 ≤ String.length red)%nat ∧
    (6 ≤ String.length green)%nat ∧
    (6 ≤ String.length blue)%nat ∧
    (String.length red = 6%nat ↔ -15 ≤ r ≤ 255) ∧
    (String.length green = 6%nat ↔ -15 ≤ g ≤ 255) ∧
    (String.length blue = 6%nat ↔ -15 ≤ b ≤ 255).
Proof.
  eexists _, _, _. split; [reflexivity |].
  rewrite !string_length_app. cbn [String.length].
  destruct (format_02X_width r) as [? [? ?]].
  destruct (format_02X_width g) as [? [? ?]].
  destruct (format_02X_width b) as [? [? ?]].
  split_and!; try lia; split; intros; try lia; auto with lia.
Qed.

Lemma two_digit_hex_inj a b :
  is_byte a → is_byte b → two_digit_hex a = two_digit_hex b → a = b.
Proof.
  intros Ha Hb Heq. apply Z.eqb_eq.
  pose proof (range_enum
                (λ a, forallb
                        (λ b, implb (String.eqb (two_digit_hex a)
                                                (two_digit_hex b)) (a =? b))
                        (range 0 256)) 0 256) as Hall.
  specialize (Hall ltac:(vm_compute; reflexivity) a Ha).
  rewrite forallb_forall in Hall. specialize (Hall b).
  rewrite <- list_elem_of_In, elem_of_range in Hall. specialize (Hall Hb).
  apply String.eqb_eq in Heq. by rewrite Heq in Hall.
Qed.

(** Distinct 8-bit pixels get distinct colour triples: [rgb_to_hex] is
    injective on bytes, so the channel values can be read back from the
    strings. *)
Theorem rgb_to_hex_injective (p q : rgb) :
  is_byte p.1.1 → is_byte p.1.2 → is_byte p.2 →
  is_byte q.1.1 → is_byte q.1.2 → is_byte q.2 →
  rgb_to_hex p = rgb_to_hex q → p = q.
Proof.
  destruct p as [[r g] b], q as [[r' g'] b']. cbn [fst snd].
  intros Hr Hg Hb Hr' Hg' Hb' Heq. unfold rgb_to_hex in Heq.
  rewrite !format_02X_byte in Heq by assumption.
  cbv [two_digit_hex String.append] in Heq.
  injection Heq as Hr1 Hr2 Hg1 Hg2 Hb1 Hb2.
  rewrite (two_digit_hex_inj r r'), (two_digit_hex_inj g g'),
    (two_digit_hex_inj b b');
    (done || (unfold two_digit_hex; congruence)).
Qed.

Lemma rgb_to_hex_injective_witness :
  (is_byte 255 ∧ is_byte 128 ∧ is_byte 0) ∧
  (rgb_to_hex (255, 128, 0) = rgb_to_hex (255, 128, 0) →
   (255, 128, 0) = (255, 128, 0)).
Proof.
  assert (is_byte 255 ∧ is_byte 128 ∧ is_byte 0) as H by (unfold is_byte; lia).
  split; [exact H |]. destruct H as (H1 & H2 & H3).
  exact (rgb_to_hex_injective (255, 128, 0) (255, 128, 0) H1 H2 H3 H1 H2 H3).
Defined.

(** ** [get_subpixel_indices] as a bijection between columns *)

(** Every spreadsheet column [k] belongs to the block of exactly one image
    column, [(k + 2) / 3], and its place in the tuple is fixed by
    [(k - 1) mod 3]: 0 the first entry, 2 the second, 1 the third. *)
Theorem subpixel_column_owner (c k : Z) :
  (k ∈ index_set (get_subpixel_indices c) ↔ c = (k + 2) / 3) ∧
  get_subpixel_indices ((k + 2) / 3)
  = (k - (k - 1) mod 3, k - (k - 1) mod 3 + 2, k - (k - 1) mod 3 + 1).
Proof.
  split.
  - rewrite index_set_subpixel. Z.to_euclidean_division_equations. lia.
  - rewrite get_subpixel_indices_eq.
    assert (3 * ((k + 2) / 3) = k - (k - 1) mod 3 + 2) as ->
      by (Z.to_euclidean_division_equations; lia).
    f_equal; [f_equal |]; lia.
Qed.

(** * Further properties of [fill_subpixel] and [fill_pixel] *)

(** [fill_subpixel] sets the fill of the addressed cell, whatever the cell
    held before or whether it existed, and touches nothing else: every other
    cell, the sheet format and the files are as they were, and one fill is
    logged. *)
Theorem fill_subpixel_sets_one_cell (fmt : SheetFormatProperties)
    (cs : gmap (Z * Z) Cell) (fs : gmap string Workbook) (evs : list Event)
    (row_num k : Z) (colour : string) :
  1 ≤ row_num → 1 ≤ k →
  ∃ cs',
    fill_subpixel (ws_cell ws0 row_num) k colour (render_state fmt cs fs evs)
    = (inr tt, render_state fmt cs' fs (evs ++ [EvFill row_num k colour])) ∧
    cs' !! (row_num, k) = Some (solid colour) ∧
    (∀ rc, rc ≠ (row_num, k) → cs' !! rc = cs !! rc).
Proof.
  intros Hr Hk. eexists. split; [by apply fill_subpixel_run |].
  split; [apply lookup_insert_eq |].
  intros rc Hne. by apply lookup_insert_ne.
Qed.

Lemma fill_subpixel_sets_one_cell_witness :
  (1 ≤ 4 ∧ 1 ≤ 7) ∧
  ∃ cs',
    fill_subpixel (ws_cell ws0 4) 7 "00AB00"
      (render_state grid_format {[ (4, 7) := solid "FF0000" ]} ∅ [])
    = (inr tt, render_state grid_format cs' ∅ ([] ++ [EvFill 4 7 "00AB00"])) ∧
    cs' !! (4, 7) = Some (solid "00AB00").
Proof.
  assert (1 ≤ 4 ∧ 1 ≤ 7) as H by lia. split; [exact H |].
  destruct H as [Hr Hk].
  destruct (fill_subpixel_sets_one_cell grid_format
              {[ (4, 7) := solid "FF0000" ]} ∅ [] 4 7 "00AB00" Hr Hk)
    as (cs' & Hrun & Hcell & _).
  by exists cs'.
Defined.

Lemma ws_cell_rejects ws row column st :
  row < 1 ∨ column < 1 → ws_cell ws row column st = (inl ValueError, st).
Proof.
  intros H. unfold ws_cell.
  replace ((row <? 1) || (column <? 1)) with true; [done |].
  symmetry. apply orb_true_iff. rewrite !Z.ltb_lt. exact H.
Qed.

(** With the indices of image column [c], [fill_pixel] succeeds exactly when
    the row and the column are at least 1.  Otherwise the very first
    [ws.cell] call raises [ValueError], and nothing has been changed. *)
Theorem fill_pixel_valid_iff (fmt : SheetFormatProperties)
    (cs : gmap (Z * Z) Cell) (fs : gmap string Workbook) (evs : list Event)
    (row_num c : Z) (colours : string * string * string) :
  let run := fill_pixel ws0 row_num (get_subpixel_indices c) colours
               (render_state fmt cs fs evs) in
  (run.1 = inr tt ↔ 1 ≤ row_num ∧ 1 ≤ c) ∧
  (run.1 ≠ inr tt → run = (inl ValueError, render_state fmt cs fs evs)).
Proof.
  cbn zeta. rewrite get_subpixel_indices_eq.
  destruct colours as [[c1 c2] c3].
  destruct (decide (1 ≤ row_num ∧ 1 ≤ c)) as [[Hr Hc] | Hbad].
  - rewrite fill_pixel_run by lia. cbn. split; [done |]. by intros [].
  - assert (fill_pixel ws0 row_num (3 * c - 2, 3 * c, 3 * c - 1) (c1, c2, c3)
              (render_state fmt cs fs evs)
            = (inl ValueError, render_state fmt cs fs evs)) as ->.
    { unfold fill_pixel. cbn [zip3 for_each]. unfold bind at 1, fill_subpixel.
      unfold bind at 1. rewrite ws_cell_rejects by lia. reflexivity. }
    cbn. split; [| done]. split; [done | intros; by destruct Hbad].
Qed.

(** [fill_pixel] does not roll back: when the first index is valid and the
    second is not, it raises [ValueError] with the first cell already filled
    and its fill already logged. *)
Theorem fill_pixel_no_rollback (fmt : SheetFormatProperties)
    (cs : gmap (Z * Z) Cell) (fs : gmap string Workbook) (evs : list Event)
    (row_num k1 k2 k3 : Z) (c1 c2 c3 : string) :
  1 ≤ row_num → 1 ≤ k1 → k2 < 1 →
  fill_pixel ws0 row_num (k1, k2, k3) (c1, c2, c3) (render_state fmt cs fs evs)
  = (inl ValueError,
     render_state fmt (<[(row_num, k1) := solid c1]> cs) fs
       (evs ++ [EvFill row_num k1 c1])).
Proof.
  intros Hr H1 H2. unfold fill_pixel. cbn [zip3 for_each].
  unfold bind at 1. rewrite fill_subpixel_run by done.
  unfold bind at 1, fill_subpixel. unfold bind at 1.
  rewrite ws_cell_rejects by lia. reflexivity.
Qed.

Lemma fill_pixel_no_rollback_witness :
  (1 ≤ 2 ∧ 1 ≤ 1 ∧ 0 < 1) ∧
  fill_pixel ws0 2 (1, 0, 3) ("FF0000", "008000", "000000")
    (render_state grid_format ∅ ∅ [])
  = (inl ValueError,
     render_state grid_format (<[(2, 1) := solid "FF0000"]> ∅) ∅
       ([] ++ [EvFill 2 1 "FF0000"])).
Proof.
  assert (1 ≤ 2 ∧ 1 ≤ 1 ∧ 0 < 1) as H by lia. split; [exact H |].
  destruct H as (Hr & H1 & H2).
  exact (fill_pixel_no_rollback grid_format ∅ ∅ [] 2 1 0 3
           "FF0000" "008000" "000000" Hr H1 H2).
Defined.

(** When indices coincide the later colour wins: after [fill_pixel] the third
    index holds the third colour, the second holds the second colour unless
    it is also the third index, and the first holds the first colour unless
    it is also one of the other two. *)
Theorem fill_pixel_last_write_wins (fmt : SheetFormatProperties)
    (cs : gmap (Z * Z) Cell) (fs : gmap string Workbook) (evs : list Event)
    (row_num k1 k2 k3 : Z) (c1 c2 c3 : string) :
  1 ≤ row_num → 1 ≤ k1 → 1 ≤ k2 → 1 ≤ k3 →
  ∃ cs',
    fill_pixel ws0 row_num (k1, k2, k3) (c1, c2, c3)
      (render_state fmt cs fs evs)
    = (inr tt,
       render_state fmt cs' fs
         (evs ++ [EvFill row_num k1 c1; EvFill row_num k2 c2;
                  EvFill row_num k3 c3])) ∧
    cs' !! (row_num, k3) = Some (solid c3) ∧
    (k2 ≠ k3 → cs' !! (row_num, k2) = Some (solid c2)) ∧
    (k1 ≠ k2 → k1 ≠ k3 → cs' !! (row_num, k1) = Some (solid c1)) ∧
    (∀ r k, (r, k) ∉ [(row_num, k1); (row_num, k2); (row_num, k3)] →
            cs' !! (r, k) = cs !! (r, k)).
Proof.
  intros Hr H1 H2 H3. eexists. split; [by apply fill_pixel_run |].
  split_and!.
  - apply lookup_insert_eq.
  - intros Hne. rewrite lookup_insert_ne by congruence. apply lookup_insert_eq.
  - intros Hne2 Hne3. rewrite !lookup_insert_ne by congruence.
    apply lookup_insert_eq.
  - intros r k Hnot. rewrite !not_elem_of_cons in Hnot.
    destruct Hnot as (Hn1 & Hn2 & Hn3 & _).
    by rewrite !lookup_insert_ne.
Qed.

Lemma fill_pixel_last_write_wins_witness :
  (1 ≤ 1 ∧ 1 ≤ 5) ∧
  ∃ cs',
    fill_pixel ws0 1 (5, 5, 5) ("FF0000", "008000", "000000")
      (render_state grid_format ∅ ∅ [])
    = (inr tt,
       render_state grid_format cs' ∅
         ([] ++ [EvFill 1 5 "FF0000"; EvFill 1 5 "008000";
                 EvFill 1 5 "000000"])) ∧
    cs' !! (1, 5) = Some (solid "000000").
Proof.
  assert (1 ≤ 1 ∧ 1 ≤ 5) as H by lia. split; [exact H |].
  destruct H as [Hr Hk].
  destruct (fill_pixel_last_write_wins grid_format ∅ ∅ [] 1 5 5 5
              "FF0000" "008000" "000000" Hr Hk Hk Hk)
    as (cs' & Hrun & Hcell & _).
  by exists cs'.
Defined.

(** * The worksheet of an arbitrary image *)

(** The colour at offset [j] of a pixel's block of three columns: red first,
    then blue, then green. *)
Definition subpixel_colour (px : rgb) (j : Z) : string :=
  let '(red, green, blue) := rgb_to_hex px in
  if j =? 0 then red else if j =? 1 then blue else green.

(** The cell the pipeline leaves at [(r, k)] for an image of size [(w, h)]:
    column [k] shows pixel column [(k - 1) / 3]. *)
Definition expected_cell (rgb_im : RGBImage) (w h r k : Z) : option Cell :=
  if decide (1 ≤ r ≤ h ∧ 1 ≤ k ≤ 3 * w) then
    Some (solid (subpixel_colour (pixel_of rgb_im ((k - 1) / 3) (r - 1))
                   ((k - 1) mod 3)))
  else None.

Lemma pixel_cells_lookup r c px cs r' k :
  pixel_cells r c px cs !! (r', k)
  = if decide (r' = r ∧ 3 * c - 2 ≤ k ≤ 3 * c) then
      Some (solid (subpixel_colour px (k - (3 * c - 2))))
    else cs !! (r', k).
Proof.
  rewrite pixel_cells_eq. unfold subpixel_colour.
  destruct (rgb_to_hex px) as [[red green] blue]. cbn [fst snd].
  destruct (decide (r' = r ∧ 3 * c - 2 ≤ k ≤ 3 * c)) as [[-> Hk] | Hout].
  - assert (k = 3 * c - 2 ∨ k = 3 * c - 1 ∨ k = 3 * c) as [-> | [-> | ->]]
      by lia.
    + rewrite !lookup_insert_ne by (intros [=]; lia).
      rewrite lookup_insert_eq. by replace (3 * c - 2 - (3 * c - 2)) with 0 by lia.
    + rewrite lookup_insert_eq.
      by replace (3 * c - 1 - (3 * c - 2)) with 1 by lia.
    + rewrite lookup_insert_ne by (intros [=]; lia).
      rewrite lookup_insert_eq. by replace (3 * c - (3 * c - 2)) with 2 by lia.
  - rewrite !lookup_insert_ne by (intros [=]; lia). done.
Qed.

Lemma column_cells_lookup_gen (P : Z → rgb) c (l : list Z) cs r k :
  foldl (flip (λ r, pixel_cells r c (P r))) cs l !! (r, k)
  = if decide (r ∈ l ∧ 3 * c - 2 ≤ k ≤ 3 * c) then
      Some (solid (subpixel_colour (P r) (k - (3 * c - 2))))
    else cs !! (r, k).
Proof.
  revert cs. induction l as [| a l IH]; intros cs; cbn [foldl].
  - destruct (decide _) as [[Hin _] | _]; [by apply elem_of_nil in Hin | done].
  - rewrite IH. unfold flip. rewrite pixel_cells_lookup.
    destruct (decide (r ∈ l ∧ _)) as [[Hin Hk] | Hout].
    + rewrite decide_True; [done | split; [by right | done]].
    + destruct (decide (r = a ∧ _)) as [[-> Hk] | Hout'].
      * rewrite decide_True; [done | split; [by left | done]].
      * rewrite decide_False; [done |].
        intros [[-> | Hin]%elem_of_cons Hk]; tauto.
Qed.

Lemma column_cells_lookup rgb_im h c cs r k :
  column_cells rgb_im h c cs !! (r, k)
  = if decide (1 ≤ r ≤ h ∧ 3 * c - 2 ≤ k ≤ 3 * c) then
      Some (solid (subpixel_colour (pixel_of rgb_im (c - 1) (r - 1))
                     (k - (3 * c - 2))))
    else cs !! (r, k).
Proof.
  unfold column_cells.
  rewrite (column_cells_lookup_gen (λ r, pixel_of rgb_im (c - 1) (r - 1))).
  destruct (decide (r ∈ range 1 (h + 1) ∧ _)) as [[Hin Hk] | Hout].
  - apply elem_of_range in Hin. rewrite decide_True; [done | lia].
  - rewrite decide_False; [done |]. rewrite elem_of_range in Hout. lia.
Qed.

Lemma image_cells_lookup_gen rgb_im h (l : list (Z * Z)) cs r k :
  foldl (flip (λ ic : Z * Z, column_cells rgb_im h ic.2)) cs l !! (r, k)
  = if decide (1 ≤ r ≤ h ∧ (k + 2) / 3 ∈ l.*2) then
      Some (solid (subpixel_colour (pixel_of rgb_im ((k - 1) / 3) (r - 1))
                     ((k - 1) mod 3)))
    else cs !! (r, k).
Proof.
  revert cs. induction l as [| [i c] l IH]; intros cs; cbn [foldl].
  - destruct (decide _) as [[_ Hin] | _]; [by apply elem_of_nil in Hin | done].
  - rewrite IH. unfold flip. cbn [snd]. rewrite column_cells_lookup.
    rewrite fmap_cons. cbn [snd].
    destruct (decide (1 ≤ r ≤ h ∧ (k + 2) / 3 ∈ l.*2)) as [[Hr Hin] | Hout].
    + rewrite decide_True; [done | split; [done | by right]].
    + destruct (decide (1 ≤ r ≤ h ∧ 3 * c - 2 ≤ k ≤ 3 * c)) as [[Hr Hk] | Hout'].
      * assert (c = (k + 2) / 3) as Hc
          by (Z.to_euclidean_division_equations; lia).
        rewrite decide_True by (split; [done | rewrite <- Hc; by left]).
        replace (c - 1) with ((k - 1) / 3)
          by (Z.to_euclidean_division_equations; lia).
        replace (k - (3 * c - 2)) with ((k - 1) mod 3)
          by (Z.to_euclidean_division_equations; lia).
        done.
      * rewrite decide_False; [done |].
        intros [Hr [<- | Hin]%elem_of_cons]; [| tauto].
        apply Hout'. split; [done |].
        Z.to_euclidean_division_equations; lia.
Qed.

Lemma enumerate_snd {A} (l : list A) : (enumerate l).*2 = l.
Proof. unfold enumerate. apply snd_zip. rewrite length_seqZ. lia. Qed.

(** The cells rendered for an image, cell by cell. *)
Lemma image_cells_lookup im w h r k :
  size im = (w, h) →
  image_cells im !! (r, k) = expected_cell (convert_RGB im) w h r k.
Proof.
  intros Hsize. unfold image_cells, expected_cell. rewrite Hsize.
  rewrite image_cells_lookup_gen, enumerate_snd, lookup_empty.
  destruct (decide (1 ≤ r ≤ h ∧ 1 ≤ k ≤ 3 * w)) as [Hin | Hout].
  - rewrite decide_True; [done |]. rewrite elem_of_range.
    Z.to_euclidean_division_equations; lia.
  - rewrite decide_False; [done |]. rewrite elem_of_range.
    Z.to_euclidean_division_equations; lia.
Qed.



(** ** Counting cells and fills *)

Lemma NoDup_list_prod {A B} (l1 : list A) (l2 : list B) :
  NoDup l1 → NoDup l2 → NoDup (list_prod l1 l2).
Proof.
  intros H1 H2. induction H1 as [| a l1 Ha H1 IH]; cbn; [constructor |].
  apply NoDup_app. split_and!.
  - apply (NoDup_fmap_2 _). exact H2.
  - intros [a' b] [b' [[= -> ->] _]]%list_elem_of_fmap Hin.
    apply list_elem_of_In, in_prod_iff in Hin as [Hin _].
    by apply list_elem_of_In in Hin.
  - exact IH.
Qed.

Lemma image_cells_size im w h :
  size im = (w, h) → 0 ≤ w → 0 ≤ h →
  base.size (image_cells im) = Z.to_nat (3 * w * h).
Proof.
  intros Hsize Hw Hh.
  set (coords := list_prod (seqZ 1 h) (seqZ 1 (3 * w))).
  set (cell := λ rk : Z * Z,
         solid (subpixel_colour
                  (pixel_of (convert_RGB im) ((rk.2 - 1) / 3) (rk.1 - 1))
                  ((rk.2 - 1) mod 3))).
  assert (((λ rk, (rk, cell rk)) <$> coords).*1 = coords) as Hfst.
  { rewrite <- list_fmap_compose. apply list_fmap_id. }
  assert (NoDup coords) as Hnodup
    by (apply NoDup_list_prod; apply NoDup_seqZ).
  assert (∀ r k, (r, k) ∈ coords ↔ 1 ≤ r ≤ h ∧ 1 ≤ k ≤ 3 * w) as Hcoords.
  { intros r k. unfold coords.
    rewrite list_elem_of_In, in_prod_iff, <- !list_elem_of_In, !elem_of_seqZ.
    lia. }
  assert (image_cells im = list_to_map ((λ rk, (rk, cell rk)) <$> coords))
    as ->.
  { apply map_eq. intros [r k]. rewrite (image_cells_lookup im w h) by done.
    unfold expected_cell. destruct (decide _) as [Hin | Hout]; symmetry.
    - apply elem_of_list_to_map_1; [by rewrite Hfst |].
      apply list_elem_of_fmap. exists (r, k). split; [done |].
      by apply Hcoords.
    - apply not_elem_of_list_to_map_1. rewrite Hfst. by rewrite Hcoords. }
  rewrite map_size_list_to_map by by rewrite Hfst.
  rewrite length_fmap. unfold coords.
  rewrite length_prod, !length_seqZ. nia.
Qed.

Lemma fills_of_concat_length {A} (f : A → list Event) (l : list A) n :
  (∀ x, length (fills_of (f x)) = n) →
  length (fills_of (concat (f <$> l))) = (n * length l)%nat.
Proof.
  intros Hf. induction l as [| x l IH]; cbn [fmap list_fmap concat length].
  - cbn. lia.
  - rewrite fills_of_app, length_app, Hf, IH. lia.
Qed.

Lemma enumerate_length {A} (l : list A) : length (enumerate l) = length l.
Proof. by rewrite <- (length_fmap snd), enumerate_snd. Qed.

Lemma image_fills_length im w h :
  size im = (w, h) → 0 ≤ w → 0 ≤ h →
  length (fills_of (image_events im)) = Z.to_nat (3 * w * h).
Proof.
  intros Hsize Hw Hh. unfold image_events. rewrite Hsize.
  rewrite (fills_of_concat_length _ _ (3 * Z.to_nat h)).
  - unfold range. rewrite enumerate_length, length_seqZ. nia.
  - intros [i c]. unfold column_events.
    rewrite (fills_of_concat_length _ _ 3).
    + unfold range. rewrite length_seqZ. lia.
    + intros r. by rewrite fills_of_app, pixel_fills_eq.
Qed.

(** For every readable image the pipeline issues [3 * w * h] fills and the
    worksheet ends with just as many cells: no cell is filled twice. *)
Theorem main_fills_each_cell_once (env : Env) (inp dest : string)
    (fs : gmap string Workbook) (im : Image) (w h : Z) :
  image_open env inp = Some im →
  size im = (w, h) → readableb im = true →
  0 ≤ w → 0 ≤ h →
  ∃ ws,
    heap (main env inp dest (init_state fs)).2
    = [{| sheets := [ws]; active := 0 |}] ∧
    length (fills_of (effects (main env inp dest (init_state fs)).2))
    = Z.to_nat (3 * w * h) ∧
    base.size (cells ws) = Z.to_nat (3 * w * h).
Proof.
  intros Hopen Hsize Hread Hw Hh.
  rewrite (main_heap env inp dest fs im Hopen Hread).
  rewrite (main_fills env inp dest fs im Hopen Hread).
  eexists. split; [reflexivity |]. cbn [cells].
  split; [by apply image_fills_length | by apply image_cells_size].
Qed.

Lemma main_fills_each_cell_once_witness :
  let im := image_of_rows 2 2 [[(1, 2, 3); (4, 5, 6)]; [(7, 8, 9); (10, 11, 12)]] in
  (0 ≤ 2) ∧
  length (fills_of (effects (main (env_with "in.png" im) "in.png" "out.xlsx"
                               (init_state ∅)).2))
  = Z.to_nat (3 * 2 * 2).
Proof.
  intros im. assert (0 ≤ 2) as H by lia. split; [exact H |].
  destruct (main_fills_each_cell_once (env_with "in.png" im) "in.png"
              "out.xlsx" ∅ im 2 2 eq_refl eq_refl eq_refl H H)
    as (ws & _ & Hlen & _).
  exact Hlen.
Defined.

(** ** Progress reports *)

(** The values passed to [progress_bar.update]. *)
Definition progress_of (evs : list Event) : list Z :=
  omap (λ e, match e with EvProgress v => Some v | _ => None end) evs.

Lemma progress_of_app evs1 evs2 :
  progress_of (evs1 ++ evs2) = progress_of evs1 ++ progress_of evs2.
Proof. apply omap_app. Qed.

Lemma progress_of_concat {A} (f : A → list Event) (l : list A) :
  progress_of (concat (f <$> l)) = concat ((λ x, progress_of (f x)) <$> l).
Proof.
  induction l as [| x l IH]; cbn [fmap list_fmap concat]; [done |].
  by rewrite progress_of_app, IH.
Qed.

Lemma enumerate_range lo hi :
  enumerate (range lo hi) = (λ i, (i, lo + i)) <$> seqZ 0 (hi - lo).
Proof.
  apply list_eq. intros n. unfold enumerate, range.
  rewrite lookup_zip_with, length_seqZ, list_lookup_fmap.
  destruct (decide (Z.of_nat n < hi - lo)) as [Hlt | Hge].
  - rewrite !lookup_seqZ_lt by lia. cbn. do 2 f_equal; lia.
  - by rewrite !lookup_seqZ_ge by lia.
Qed.

Lemma column_progress rgb_im h i c :
  progress_of (column_events rgb_im h i c) = seqZ (i * h + 1) h.
Proof.
  unfold column_events. rewrite progress_of_concat.
  assert (∀ l : list Z,
            concat ((λ r, progress_of
                            (pixel_fills r c (pixel_of rgb_im (c - 1) (r - 1))
                             ++ [EvProgress (i * h + r)])) <$> l)
            = Z.add (i * h) <$> l) as ->.
  { induction l as [| r l IH]; cbn [fmap list_fmap concat]; [done |].
    rewrite IH, progress_of_app, pixel_fills_eq. reflexivity. }
  unfold range. rewrite fmap_add_seqZ. f_equal. lia.
Qed.

Lemma concat_blocks h n :
  0 ≤ h →
  concat ((λ i, seqZ (i * h + 1) h) <$> seqZ 0 (Z.of_nat n))
  = seqZ 1 (Z.of_nat n * h).
Proof.
  intros Hh. induction n as [| n IH]; [done |].
  rewrite seqZ_S, fmap_app, concat_app, IH. cbn [fmap list_fmap concat].
  rewrite app_nil_r.
  replace (Z.of_nat (S n) * h) with (Z.of_nat n * h + h) by lia.
  rewrite seqZ_app by lia. do 2 f_equal. lia.
Qed.

Lemma image_progress im w h :
  size im = (w, h) → 0 ≤ w → 0 ≤ h →
  progress_of (image_events im) = seqZ 1 (w * h).
Proof.
  intros Hsize Hw Hh. unfold image_events. rewrite Hsize.
  rewrite progress_of_concat, enumerate_range, <- list_fmap_compose.
  replace (w + 1 - 1) with (Z.of_nat (Z.to_nat w)) by lia.
  replace (w * h) with (Z.of_nat (Z.to_nat w) * h) by lia.
  rewrite <- concat_blocks by done. f_equal.
  apply list_fmap_ext. intros _ i _. cbn. apply column_progress.
Qed.

(** For every readable image the progress bar, created with maximum
    [w * h], is updated with 1, 2, ..., [w * h] in this order, one value per
    pixel, and is finished cleanly exactly once. *)
Theorem main_progress_counts_pixels (env : Env) (inp dest : string)
    (fs : gmap string Workbook) (im : Image) (w h : Z) :
  image_open env inp = Some im →
  size im = (w, h) → readableb im = true →
  0 ≤ w → 0 ≤ h →
  let evs := effects (main env inp dest (init_state fs)).2 in
  progress_of evs = seqZ 1 (w * h) ∧
  omap (λ e, match e with EvProgressFinish d => Some d | _ => None end) evs
  = [false].
Proof.
  intros Hopen Hsize Hread Hw Hh. cbn zeta.
  rewrite (main_run env inp dest fs im Hopen Hread).
  assert (∀ tail,
            progress_of tail = [] →
            progress_of (EvSheetFormat grid_format :: image_events im ++ tail)
            = seqZ 1 (w * h)) as Hprog.
  { intros tail Htail.
    change (EvSheetFormat grid_format :: ?l)
      with ([EvSheetFormat grid_format] ++ l).
    rewrite !progress_of_app, Htail, (image_progress im w h) by done.
    cbn. by rewrite app_nil_r. }
  assert (omap (λ e, match e with EvProgressFinish d => Some d | _ => None end)
            (image_events im) = []) as Hfin.
  { unfold image_events. destruct (size im) as [w' h'].
    induction (enumerate (range 1 (w' + 1))) as [| [i c] l IH];
      cbn [fmap list_fmap concat]; [done |].
    rewrite omap_app, IH, app_nil_r. unfold column_events. cbn [fst snd].
    induction (range 1 (h' + 1)) as [| r rows IHr];
      cbn [fmap list_fmap concat]; [done |].
    by rewrite !omap_app, IHr, pixel_fills_eq. }
  destruct (writable env dest); cbn [snd effects].
  - split; [by apply Hprog |].
    change (EvSheetFormat grid_format :: ?l)
      with ([EvSheetFormat grid_format] ++ l).
    by rewrite !omap_app, Hfin.
  - split; [by apply Hprog |].
    change (EvSheetFormat grid_format :: ?l)
      with ([EvSheetFormat grid_format] ++ l).
    by rewrite !omap_app, Hfin.
Qed.

Lemma main_progress_counts_pixels_witness :
  let im := image_of_rows 2 2 [[(1, 2, 3); (4, 5, 6)]; [(7, 8, 9); (10, 11, 12)]] in
  (0 ≤ 2) ∧
  progress_of (effects (main (env_with "in.png" im) "in.png" "out.xlsx"
                          (init_state ∅)).2)
  = seqZ 1 (2 * 2).
Proof.
  intros im. assert (0 ≤ 2) as H by lia. split; [exact H |].
  exact (proj1 (main_progress_counts_pixels (env_with "in.png" im) "in.png"
                  "out.xlsx" ∅ im 2 2 eq_refl eq_refl eq_refl H H)).
Defined.

(** * What [main] does to the files, in every world *)


Section Maintains.
Context (I : State → Prop).







End Maintains.






(** * How a run on a readable image ends and in which order it works *)



(** ** The order of the fills *)

(** The three fills of the pixel at 0-indexed [(x, y)], in the order they are
    issued: red into column [3x + 1], green into [3x + 3], blue into
    [3x + 2]. *)
Definition pixel_triples (rgb_im : RGBImage) (x y : Z)
    : list (Z * Z * string) :=
  let '(red, green, blue) := rgb_to_hex (pixel_of rgb_im x y) in
  [(y + 1, 3 * x + 1, red); (y + 1, 3 * x + 3, green); (y + 1, 3 * x + 2, blue)].

Lemma fills_of_concat {A} (f : A → list Event) (l : list A) :
  fills_of (concat (f <$> l)) = concat ((λ x, fills_of (f x)) <$> l).
Proof.
  induction l as [| x l IH]; cbn [fmap list_fmap concat]; [done |].
  by rewrite fills_of_app, IH.
Qed.

Lemma column_fills rgb_im h i x :
  fills_of (column_events rgb_im h i (1 + x))
  = concat (pixel_triples rgb_im x <$> seqZ 0 h).
Proof.
  unfold column_events, range. rewrite fills_of_concat.
  replace (h + 1 - 1) with h by lia.
  change (seqZ 1 h) with (seqZ (1 + 0) h).
  rewrite <- (fmap_add_seqZ 1 0 h), <- list_fmap_compose. f_equal.
  apply list_fmap_ext. intros _ y _. unfold compose. cbv beta.
  rewrite fills_of_app, pixel_fills_eq. unfold pixel_triples.
  replace (1 + x - 1) with x by lia. replace (1 + y - 1) with y by lia.
  replace (3 * (1 + x) - 2) with (3 * x + 1) by lia.
  replace (3 * (1 + x) - 1) with (3 * x + 2) by lia.
  replace (3 * (1 + x)) with (3 * x + 3) by lia.
  replace (1 + y) with (y + 1) by lia.
  by destruct (rgb_to_hex (pixel_of rgb_im x y)) as [[red green] blue].
Qed.

(** The fills are issued column by column from the left, top to bottom within
    a column, and red, green, blue within a pixel: the list of all fills of a
    run on a readable image is the concatenation, over [x] from 0 to [w - 1]
    and then [y] from 0 to [h - 1], of the three fills of pixel [(x, y)]. *)
Theorem main_fill_order (env : Env) (inp dest : string)
    (fs : gmap string Workbook) (im : Image) (w h : Z) :
  image_open env inp = Some im →
  size im = (w, h) → readableb im = true →
  fills_of (effects (main env inp dest (init_state fs)).2)
  = concat ((λ x, concat (pixel_triples (convert_RGB im) x <$> seqZ 0 h))
            <$> seqZ 0 w).
Proof.
  intros Hopen Hsize Hread.
  rewrite (main_fills env inp dest fs im Hopen Hread).
  unfold image_events. rewrite Hsize, fills_of_concat, enumerate_range.
  replace (w + 1 - 1) with w by lia.
  rewrite <- list_fmap_compose. f_equal.
  apply list_fmap_ext. intros _ x _. unfold compose. cbn [fst snd].
  apply column_fills.
Qed.

Lemma main_fill_order_witness :
  let im := image_of_rows 2 1 [[(255, 128, 0); (0, 64, 255)]] in
  fills_of (effects (main (env_with "in.png" im) "in.png" "out.xlsx"
                       (init_state ∅)).2)
  = [(1, 1, "FF0000"); (1, 3, "008000"); (1, 2, "000000");
     (1, 4, "000000"); (1, 6, "004000"); (1, 5, "0000FF")].
Proof.
  intros im.
  exact (main_fill_order (env_with "in.png" im) "in.png" "out.xlsx" ∅ im 2 1
           eq_refl eq_refl eq_refl).
Defined.
